(** * HALL coordination kernel: lease table, workflow guard and event ring

    A shallow embedding of the TypeScript sources of HALL
    (core/state.ts, core/types.ts, infra/db.ts, mcp.ts, index.ts) and the
    properties of the lease manager, the workflow guard and the event
    buffer that are stated about them.

    Conventions of the embedding.
    - SQLite tables are lists of rows in insertion order.  Each SQL
      statement of the source is one list function (filter for DELETE and
      WHERE, removal of the row with the same primary key followed by an
      append for INSERT OR REPLACE).
    - [Date.now()] is not a function of the state.  Every call of [now()]
      in a method becomes one explicit argument of the embedded method,
      in the order in which the source performs the calls.  The clock
      never runs backwards; this is an explicit premise wherever it
      matters.
    - [nanoid(12)] is an argument too (the fresh identifier).
    - Methods that write the database return the new database next to
      their result; methods that throw return [Err]. *)

From Stdlib Require Import ZArith List String Ascii DecimalString Bool Lia Permutation.
From Stdlib Require Import Sorted.
Import ListNotations.
Local Open Scope string_scope.
Local Open Scope list_scope.
Local Open Scope Z_scope.

(** ** JavaScript strings and arrays *)

(** A JavaScript string is a sequence of UTF-16 code units; [length] and
    [slice] count code units.  Identifiers (agent ids, paths, task ids)
    are only ever compared, they are kept as [string]; the evidence
    output, whose length matters, is kept as its code units. *)
Definition CodeUnit := N.
Definition JsString := list CodeUnit.

Definition js_of_string (s : string) : JsString :=
  map N_of_ascii (list_ascii_of_string s).

Definition js_length (s : JsString) : Z := Z.of_nat (List.length s).

(** [String.prototype.slice(start, end)]: negative indices count from the
    end, indices are clamped to the length. *)
Definition js_clamp_index (len i : Z) : Z :=
  if i <? 0 then Z.max (len + i) 0 else Z.min i len.

Definition js_slice (s : JsString) (start stop : Z) : JsString :=
  let len := js_length s in
  let from := js_clamp_index len start in
  let to := js_clamp_index len stop in
  firstn (Z.to_nat (Z.max (to - from) 0)) (skipn (Z.to_nat from) s).

(** Decimal rendering of a non-negative integer inside a template literal. *)
Definition js_number_to_string (n : Z) : string :=
  NilEmpty.string_of_uint (N.to_uint (Z.to_N n)).

Definition newline : string := String (ascii_of_nat 10) EmptyString.

(** ** core/types.ts *)

Module Task.
Record t := mk
  { id : string; title : string; description : option string; createdAt : Z }.
End Task.

Module Intent.
Record t := mk
  { id : string; taskId : string; agentId : string; files : list string;
    boundaries : option string; acceptanceCriteria : option string;
    createdAt : Z }.
End Intent.

Module Claim.
Record t := mk
  { agentId : string; files : list string; expiresAt : Z; createdAt : Z }.
End Claim.

Module Evidence.
Record t := mk
  { id : string; taskId : string; agentId : string; command : string;
    output : JsString; createdAt : Z }.
End Evidence.

Inductive HallEvent :=
| file_changed (path : string) (ts : Z)
| file_added (path : string) (ts : Z)
| file_deleted (path : string) (ts : Z)
| task_created (taskId : string) (ts : Z)
| intent_posted (intentId taskId : string) (ts : Z)
| claim_created (agentId : string) (files : list string) (expiresAt ts : Z)
| claim_conflict (agentId : string) (files conflictsWith : list string) (ts : Z)
| evidence_attached (evidenceId taskId : string) (ts : Z)
| gate_result (ok : bool) (summary : string) (ts : Z).

(** ** infra/db.ts: the four tables *)

Module TaskRow.
Record t := mk
  { id : string; title : string; description : option string; created_at : Z }.
End TaskRow.

(** [files_json] holds [JSON.stringify(files)]; the column is kept as the
    array it encodes. *)
Module IntentRow.
Record t := mk
  { id : string; task_id : string; agent_id : string; files_json : list string;
    boundaries : option string; acceptance_criteria : option string;
    created_at : Z }.
End IntentRow.

(** PRIMARY KEY(agent_id, file_path). *)
Module ClaimRow.
Record t := mk
  { agent_id : string; file_path : string; expires_at : Z; created_at : Z }.
End ClaimRow.

Module EvidenceRow.
Record t := mk
  { id : string; task_id : string; agent_id : string; command : string;
    output : JsString; created_at : Z }.
End EvidenceRow.

Record HallDb := mkDb
  { tasks : list TaskRow.t;
    intents : list IntentRow.t;
    claims : list ClaimRow.t;
    evidence : list EvidenceRow.t }.

Definition emptyDb : HallDb := mkDb [] [] [] [].

Definition with_tasks (db : HallDb) (x : list TaskRow.t) : HallDb :=
  mkDb x (intents db) (claims db) (evidence db).
Definition with_intents (db : HallDb) (x : list IntentRow.t) : HallDb :=
  mkDb (tasks db) x (claims db) (evidence db).
Definition with_claims (db : HallDb) (x : list ClaimRow.t) : HallDb :=
  mkDb (tasks db) (intents db) x (evidence db).
Definition with_evidence (db : HallDb) (x : list EvidenceRow.t) : HallDb :=
  mkDb (tasks db) (intents db) (claims db) x.

(** Outcome of a method that may throw. *)
Inductive Result (A : Type) :=
| Ok (a : A)
| Err (message : string).
Arguments Ok {A} a.
Arguments Err {A} message.

(** ** The SQL statements on the claims table *)

Import ClaimRow.

(** [file_path IN (?, ?, ...)] *)
Definition path_in (files : list string) (p : string) : bool :=
  existsb (String.eqb p) files.

(** The primary key of two rows coincides. *)
Definition same_key (a p : string) (r : ClaimRow.t) : bool :=
  String.eqb (agent_id r) a && String.eqb (file_path r) p.

(** [DELETE FROM claims WHERE expires_at <= ?] *)
Definition delete_expired (t : Z) (cs : list ClaimRow.t) : list ClaimRow.t :=
  filter (fun r => negb (expires_at r <=? t)) cs.

(** [INSERT OR REPLACE INTO claims (agent_id, file_path, expires_at,
    created_at) VALUES (?, ?, ?, ?)]: the row with the same primary key,
    if any, is deleted and the new row is appended. *)
Definition insert_or_replace (a p : string) (e c : Z) (cs : list ClaimRow.t)
  : list ClaimRow.t :=
  filter (fun r => negb (same_key a p r)) cs ++ [ClaimRow.mk a p e c].

(** [SELECT DISTINCT agent_id FROM claims WHERE agent_id != ? AND
    expires_at > ? AND file_path IN (...)] *)
Definition select_conflicting (a : string) (t : Z) (files : list string)
  (cs : list ClaimRow.t) : list string :=
  nodup string_dec
    (map agent_id
       (filter (fun r => negb (String.eqb (agent_id r) a) && (t <? expires_at r)
                         && path_in files (file_path r)) cs)).

(** [ORDER BY created_at DESC], as a stable insertion sort. *)
Fixpoint insert_desc (r : ClaimRow.t) (l : list ClaimRow.t) : list ClaimRow.t :=
  match l with
  | [] => [r]
  | x :: l' =>
      if created_at x <=? created_at r then r :: x :: l'
      else x :: insert_desc r l'
  end.

Fixpoint order_by_created_at_desc (l : list ClaimRow.t) : list ClaimRow.t :=
  match l with
  | [] => []
  | r :: l' => insert_desc r (order_by_created_at_desc l')
  end.

(** The two DELETE statements of [releaseClaims]. *)
Definition released_by (a : string) (files : option (list string))
  (r : ClaimRow.t) : bool :=
  match files with
  | Some ((_ :: _) as fs) => String.eqb (agent_id r) a && path_in fs (file_path r)
  | _ => String.eqb (agent_id r) a
  end.

(** ** core/state.ts *)

Definition MAX_OUTPUT_CHARS : Z := 20000.

(** The text appended by [clipOutput]: a line feed, then
    [[clipped to ${MAX_OUTPUT_CHARS} chars]]. *)
Definition clip_marker : JsString :=
  js_of_string
    (newline ++ "[clipped to " ++ js_number_to_string MAX_OUTPUT_CHARS ++ " chars]")%string.

Definition clipOutput (s : JsString) : JsString :=
  if js_length s <=? MAX_OUTPUT_CHARS then s
  else js_slice s 0 MAX_OUTPUT_CHARS ++ clip_marker.

Module HallState.

Record CreateClaimResult := mkCreateClaimResult
  { claim : Claim.t; conflictsWith : list string }.

Record StatusResult := mkStatus
  { st_tasks : Z; st_intents : Z; st_claims : Z; st_evidence : Z; st_now : Z }.

(** A primary-key violation makes the INSERT throw. *)
Definition constraint_failed : string := "UNIQUE constraint failed".

Definition createTask (id : string) (t_now : Z) (title : string)
  (description : option string) (db : HallDb) : Result (Task.t * HallDb) :=
  let task := Task.mk id title description t_now in
  if existsb (fun r => String.eqb (TaskRow.id r) id) (tasks db)
  then Err constraint_failed
  else Ok (task,
           with_tasks db (tasks db ++ [TaskRow.mk id title description t_now])).

Definition getTask (id : string) (db : HallDb) : option Task.t :=
  match find (fun r => String.eqb (TaskRow.id r) id) (tasks db) with
  | None => None
  | Some row =>
      Some (Task.mk (TaskRow.id row) (TaskRow.title row)
              (TaskRow.description row) (TaskRow.created_at row))
  end.

Record PostIntentInput := mkPostIntentInput
  { pi_taskId : string; pi_agentId : string; pi_files : list string;
    pi_boundaries : option string; pi_acceptanceCriteria : option string }.

Definition postIntent (id : string) (t_now : Z) (input : PostIntentInput)
  (db : HallDb) : Result (Intent.t * HallDb) :=
  match getTask (pi_taskId input) db with
  | None => Err ("Unknown taskId: " ++ pi_taskId input)%string
  | Some _ =>
      let intent :=
        Intent.mk id (pi_taskId input) (pi_agentId input) (pi_files input)
          (pi_boundaries input) (pi_acceptanceCriteria input) t_now in
      if existsb (fun r => String.eqb (IntentRow.id r) id) (intents db)
      then Err constraint_failed
      else Ok (intent,
               with_intents db
                 (intents db ++
                  [IntentRow.mk id (pi_taskId input) (pi_agentId input)
                     (pi_files input) (pi_boundaries input)
                     (pi_acceptanceCriteria input) t_now]))
  end.

(** [pruneExpiredClaims]: [t_now] is the value of its call of [now()]. *)
Definition pruneExpiredClaims (t_now : Z) (db : HallDb) : HallDb :=
  with_claims db (delete_expired t_now (claims db)).

(** [findConflicts]: [t_now] is the value of its call of [now()]. *)
Definition findConflicts (t_now : Z) (agentId : string) (files : list string)
  (db : HallDb) : list string :=
  match files with
  | [] => []
  | _ :: _ => select_conflicting agentId t_now files (claims db)
  end.

(** [createClaim].  The three readings of the clock, in program order:
    [t_prune] inside [pruneExpiredClaims], [t_created] for [createdAt],
    [t_conflicts] inside [findConflicts]. *)
Definition createClaim (t_prune t_created t_conflicts : Z)
  (agentId : string) (files : list string) (ttlSeconds : Z) (db : HallDb)
  : CreateClaimResult * HallDb :=
  let db1 := pruneExpiredClaims t_prune db in
  let ttlMs := Z.max 5 ttlSeconds * 1000 in
  let createdAt := t_created in
  let expiresAt := createdAt + ttlMs in
  let conflicts := findConflicts t_conflicts agentId files db1 in
  if 0 <? Z.of_nat (List.length conflicts) then
    (mkCreateClaimResult (Claim.mk agentId files expiresAt createdAt) conflicts,
     db1)
  else
    let tx (paths : list string) (cs : list ClaimRow.t) :=
      fold_left (fun acc p => insert_or_replace agentId p expiresAt createdAt acc)
        paths cs in
    (mkCreateClaimResult (Claim.mk agentId files expiresAt createdAt) [],
     with_claims db1 (tx files (claims db1))).

(** The entries of the [byAgent] map of [listActiveClaims].  A JavaScript
    [Map] iterates in insertion order; it is an association list, and the
    in-place update of an entry is [by_agent_update]. *)
Record Entry := mkEntry
  { e_files : list string; e_expiresAt : Z; e_createdAt : Z }.

Definition ByAgent := list (string * Entry).

Fixpoint by_agent_get (a : string) (m : ByAgent) : option Entry :=
  match m with
  | [] => None
  | (k, v) :: m' => if String.eqb k a then Some v else by_agent_get a m'
  end.

Fixpoint by_agent_update (a : string) (f : Entry -> Entry) (m : ByAgent)
  : ByAgent :=
  match m with
  | [] => []
  | (k, v) :: m' =>
      if String.eqb k a then (k, f v) :: m'
      else (k, v) :: by_agent_update a f m'
  end.

(** [{ files: [], expiresAt: r.expires_at, createdAt: r.created_at }] *)
Definition new_entry (r : ClaimRow.t) : Entry :=
  mkEntry [] (expires_at r) (created_at r).

(** [entry.files.push(r.file_path)] and the two assignments after it. *)
Definition add_row (r : ClaimRow.t) (entry : Entry) : Entry :=
  mkEntry (e_files entry ++ [file_path r])
    (Z.max (e_expiresAt entry) (expires_at r))
    (Z.min (e_createdAt entry) (created_at r)).

(** One iteration of [for (const r of rows)]. *)
Definition group_row (m : ByAgent) (r : ClaimRow.t) : ByAgent :=
  let m1 :=
    match by_agent_get (agent_id r) m with
    | Some _ => m
    | None => m ++ [(agent_id r, new_entry r)]
    end in
  by_agent_update (agent_id r) (add_row r) m1.

Definition listActiveClaims (t_now : Z) (db : HallDb) : list Claim.t * HallDb :=
  let db1 := pruneExpiredClaims t_now db in
  let rows := order_by_created_at_desc (claims db1) in
  let byAgent := fold_left group_row rows [] in
  (map (fun '(agentId, v) =>
          Claim.mk agentId (e_files v) (e_expiresAt v) (e_createdAt v))
     byAgent,
   db1).

Record AttachEvidenceInput := mkAttachEvidenceInput
  { ae_taskId : string; ae_agentId : string; ae_command : string;
    ae_output : JsString }.

Definition attachEvidence (id : string) (t_now : Z)
  (input : AttachEvidenceInput) (db : HallDb) : Result (Evidence.t * HallDb) :=
  match getTask (ae_taskId input) db with
  | None => Err ("Unknown taskId: " ++ ae_taskId input)%string
  | Some _ =>
      let ev :=
        Evidence.mk id (ae_taskId input) (ae_agentId input) (ae_command input)
          (clipOutput (ae_output input)) t_now in
      if existsb (fun r => String.eqb (EvidenceRow.id r) id) (evidence db)
      then Err constraint_failed
      else Ok (ev,
               with_evidence db
                 (evidence db ++
                  [EvidenceRow.mk (Evidence.id ev) (Evidence.taskId ev)
                     (Evidence.agentId ev) (Evidence.command ev)
                     (Evidence.output ev) (Evidence.createdAt ev)]))
  end.

(** [releaseClaims] reads no clock.  The result is [info.changes], the
    number of deleted rows. *)
Definition releaseClaims (agentId : string) (files : option (list string))
  (db : HallDb) : Z * HallDb :=
  (Z.of_nat (List.length (filter (released_by agentId files) (claims db))),
   with_claims db
     (filter (fun r => negb (released_by agentId files r)) (claims db))).

(** [status]: [t_prune] is read inside [pruneExpiredClaims], [t_now] for
    the [now] field of the result. *)
Definition status (t_prune t_now : Z) (db : HallDb) : StatusResult * HallDb :=
  let db1 := pruneExpiredClaims t_prune db in
  (mkStatus (Z.of_nat (List.length (tasks db1)))
     (Z.of_nat (List.length (intents db1)))
     (Z.of_nat (List.length (claims db1)))
     (Z.of_nat (List.length (evidence db1)))
     t_now,
   db1).

End HallState.

(** ** The workflow guard queries of [HallState]

    [mcp.ts] calls three further methods of [HallState]
    ([hasIntentForFiles], [getAgentClaims], [hasEvidenceForTask]) whose
    bodies are not part of the sources at hand. *)

Module WorkflowGuard.

Record IntentCheck := mkIntentCheck
  { hasIntent : bool; missingFiles : list string }.

Record EvidenceCheck := mkEvidenceCheck { hasEvidence : bool }.

(** An intent row of this agent lists the file. *)
Definition intent_covers (agentId file : string) (r : IntentRow.t) : bool :=
  String.eqb (IntentRow.agent_id r) agentId
  && existsb (String.eqb file) (IntentRow.files_json r).

(** Modelled from the spec: the body of [HallState.hasIntentForFiles] is
    missing.  "acquire is only permitted if every requested path has a
    prior intent recorded for that agent (else rejected with a
    distinguishable reason carrying the list of files missing intent)":
    [missingFiles] are the requested files that no intent of the agent
    lists, in request order; [hasIntent] says there is none. *)
Definition hasIntentForFiles (agentId : string) (files : list string)
  (db : HallDb) : IntentCheck :=
  let missing :=
    filter (fun f => negb (existsb (intent_covers agentId f) (intents db)))
      files in
  mkIntentCheck (Z.of_nat (List.length missing) =? 0) missing.

(** Modelled from the spec: the body of [HallState.getAgentClaims] is
    missing.  "any read or write path first deletes rows where
    expiresAt <= now": the method sweeps at [t_now] and returns the paths
    of the rows the agent still has. *)
Definition getAgentClaims (t_now : Z) (agentId : string) (db : HallDb)
  : list string * HallDb :=
  let db1 := HallState.pruneExpiredClaims t_now db in
  (map file_path
     (filter (fun r => String.eqb (agent_id r) agentId) (claims db1)),
   db1).

(** Modelled from the spec: the body of [HallState.hasEvidenceForTask] is
    missing.  "release fails with a precondition-violation if the agent
    has no evidence recorded": [hasEvidence] says that the evidence table
    has a row of this agent, for whatever task. *)
Definition hasEvidenceForTask (agentId : string) (db : HallDb)
  : EvidenceCheck :=
  mkEvidenceCheck
    (existsb (fun r => String.eqb (EvidenceRow.agent_id r) agentId)
       (evidence db)).

End WorkflowGuard.

(** ** mcp.ts: the [hall_claim] and [hall_claim_release] tool handlers *)

Module Mcp.

(** Arguments of a tool call, already of the right JSON types. *)
Record ClaimCreateArgs := mkClaimCreateArgs
  { cc_agentId : string; cc_files : list string; cc_ttlSeconds : option Z }.

Record ClaimReleaseArgs := mkClaimReleaseArgs
  { cr_agentId : string; cr_files : option (list string) }.

Definition str_len_between (lo hi : nat) (s : string) : bool :=
  (lo <=? String.length s)%nat && (String.length s <=? hi)%nat.

(** [z.array(z.string().min(1)).min(1).max(200)] *)
Definition valid_files (files : list string) : bool :=
  forallb (fun f => (1 <=? String.length f)%nat) files
  && (1 <=? List.length files)%nat && (List.length files <=? 200)%nat.

(** The text of a ZodError is not modelled. *)
Definition zod_error : string := "ZodError".

(** [ClaimCreateInput.parse]: agentId of 1 to 120 characters, 1 to 200
    non-empty files, ttlSeconds absent or an integer from 5 to 3600. *)
Definition ClaimCreateInput_parse (args : ClaimCreateArgs)
  : Result ClaimCreateArgs :=
  if str_len_between 1 120 (cc_agentId args)
     && valid_files (cc_files args)
     && match cc_ttlSeconds args with
        | None => true
        | Some ttl => (5 <=? ttl) && (ttl <=? 3600)
        end
  then Ok args else Err zod_error.

(** [ClaimReleaseInput.parse]: agentId of 1 to 120 characters, files
    absent or 1 to 200 non-empty files. *)
Definition ClaimReleaseInput_parse (args : ClaimReleaseArgs)
  : Result ClaimReleaseArgs :=
  if str_len_between 1 120 (cr_agentId args)
     && match cr_files args with
        | None => true
        | Some fs => valid_files fs
        end
  then Ok args else Err zod_error.

(** The JSON object serialised into the text content of a tool result. *)
Inductive Body :=
| RejectedNoIntent (message : string) (missingFiles : list string)
| ClaimConflict (claim : Claim.t) (conflictsWith : list string) (message : string)
| ClaimOk (claim : Claim.t) (conflictsWith : list string)
| RejectedNoEvidence (message : string) (activeClaims : list string)
| ReleaseOk (released : Z) (files : option (list string))
    (* files: input.files ?? 'all'; [None] stands for 'all' *)
| ErrorText (text : string).

(** The [status] field of the body. *)
Definition status_of (b : Body) : option string :=
  match b with
  | RejectedNoIntent _ _ | RejectedNoEvidence _ _ => Some "rejected"
  | ClaimConflict _ _ _ => Some "conflict"
  | ClaimOk _ _ | ReleaseOk _ _ => Some "ok"
  | ErrorText _ => None
  end.

(** The [reason] field of the body. *)
Definition reason_of (b : Body) : option string :=
  match b with
  | RejectedNoIntent _ _ => Some "NO_INTENT"
  | RejectedNoEvidence _ _ => Some "NO_EVIDENCE"
  | _ => None
  end.

(** [isError] is [None] where the handler does not set the property. *)
Record ToolResult := mkToolResult { content : Body; isError : option bool }.

Definition join (l : list string) : string := String.concat ", " l.

(** [case 'hall_claim'].  [t_prune], [t_created], [t_conflicts] are the
    clock readings of [createClaim]. *)
Definition hall_claim (t_prune t_created t_conflicts : Z)
  (args : ClaimCreateArgs) (db : HallDb) : ToolResult * HallDb :=
  match ClaimCreateInput_parse args with
  | Err m => (mkToolResult (ErrorText ("Error: " ++ m)%string) (Some true), db)
  | Ok input =>
      let intentCheck :=
        WorkflowGuard.hasIntentForFiles (cc_agentId input) (cc_files input) db in
      if negb (WorkflowGuard.hasIntent intentCheck) then
        (mkToolResult
           (RejectedNoIntent
              ("You must post an intent (hall_intent_post) before claiming files. Missing intent for: "
               ++ join (WorkflowGuard.missingFiles intentCheck))%string
              (WorkflowGuard.missingFiles intentCheck))
           (Some true),
         db)
      else
        let '(result, db') :=
          HallState.createClaim t_prune t_created t_conflicts
            (cc_agentId input) (cc_files input)
            (match cc_ttlSeconds input with Some ttl => ttl | None => 900 end)
            db in
        if 0 <? Z.of_nat (List.length (HallState.conflictsWith result)) then
          (mkToolResult
             (ClaimConflict (HallState.claim result)
                (HallState.conflictsWith result)
                ("Files already claimed by: "
                 ++ join (HallState.conflictsWith result))%string)
             None,
           db')
        else
          (mkToolResult (ClaimOk (HallState.claim result) []) None, db')
  end.

(** [case 'hall_claim_release'].  [t_claims] is the clock reading of
    [getAgentClaims]. *)
Definition hall_claim_release (t_claims : Z) (args : ClaimReleaseArgs)
  (db : HallDb) : ToolResult * HallDb :=
  match ClaimReleaseInput_parse args with
  | Err m => (mkToolResult (ErrorText ("Error: " ++ m)%string) (Some true), db)
  | Ok input =>
      let '(activeClaims, db1) :=
        WorkflowGuard.getAgentClaims t_claims (cr_agentId input) db in
      let release (_ : unit) :=
        let '(released, db2) :=
          HallState.releaseClaims (cr_agentId input) (cr_files input) db1 in
        (mkToolResult (ReleaseOk released (cr_files input)) None, db2) in
      if 0 <? Z.of_nat (List.length activeClaims) then
        let evidenceCheck :=
          WorkflowGuard.hasEvidenceForTask (cr_agentId input) db1 in
        if negb (WorkflowGuard.hasEvidence evidenceCheck) then
          (mkToolResult
             (RejectedNoEvidence
                "You must attach evidence (hall_evidence_attach) proving your work before releasing claims. No receipts = no release."
                activeClaims)
             (Some true),
           db1)
        else release tt
      else release tt
  end.

End Mcp.

(** ** index.ts: the event ring and [broadcast] *)

Module EventRing.

Record t := mk { buffer : list HallEvent; maxSize : Z }.

Definition new (maxSize : Z) : t := mk [] maxSize.

(** [Array.prototype.shift] removes the first element. *)
Definition shift (b : list HallEvent) : list HallEvent := tl b.

Definition push (evt : HallEvent) (r : t) : t :=
  let b :=
    if maxSize r <=? Z.of_nat (List.length (buffer r))
    then shift (buffer r) else buffer r in
  mk (b ++ [evt]) (maxSize r).

Definition toArray (r : t) : list HallEvent := buffer r.

End EventRing.

(** A websocket client: its [readyState] and the events sent to it. *)
Record WsClient := mkWsClient { readyState : Z; received : list HallEvent }.

Record Server := mkServer { eventRing : EventRing.t; wsClients : list WsClient }.

(** [const eventRing = new EventRing(500)] *)
Definition initialServer : Server := mkServer (EventRing.new 500) [].

Definition broadcast (evt : HallEvent) (s : Server) : Server :=
  mkServer (EventRing.push evt (eventRing s))
    (map (fun client =>
            if readyState client =? 1
            then mkWsClient (readyState client) (received client ++ [evt])
            else client)
       (wsClients s)).

(** [GET /api/events] *)
Definition api_events (s : Server) : list HallEvent :=
  EventRing.toArray (eventRing s).

Definition broadcast_all (evts : list HallEvent) (s : Server) : Server :=
  fold_left (fun acc evt => broadcast evt acc) evts s.

(** ** Runs of the lease manager *)

(** One call of a method of [HallState] that writes the database, with the
    values its calls of [now()] return, in program order. *)
Inductive Call :=
| CallCreateTask (id : string) (t_now : Z) (title : string)
    (description : option string)
| CallPostIntent (id : string) (t_now : Z) (input : HallState.PostIntentInput)
| CallAttachEvidence (id : string) (t_now : Z)
    (input : HallState.AttachEvidenceInput)
| CallCreateClaim (t_prune t_created t_conflicts : Z) (agentId : string)
    (files : list string) (ttlSeconds : Z)
| CallListActiveClaims (t_now : Z)
| CallReleaseClaims (agentId : string) (files : option (list string))
| CallStatus (t_prune t_now : Z).

Definition readings (c : Call) : list Z :=
  match c with
  | CallCreateTask _ t _ _ => [t]
  | CallPostIntent _ t _ => [t]
  | CallAttachEvidence _ t _ => [t]
  | CallCreateClaim tp tc tf _ _ _ => [tp; tc; tf]
  | CallListActiveClaims t => [t]
  | CallReleaseClaims _ _ => []
  | CallStatus tp tn => [tp; tn]
  end.

(** The database after the call; a call that throws leaves it as it was. *)
Definition run (c : Call) (db : HallDb) : HallDb :=
  match c with
  | CallCreateTask id t title description =>
      match HallState.createTask id t title description db with
      | Ok (_, db') => db'
      | Err _ => db
      end
  | CallPostIntent id t input =>
      match HallState.postIntent id t input db with
      | Ok (_, db') => db'
      | Err _ => db
      end
  | CallAttachEvidence id t input =>
      match HallState.attachEvidence id t input db with
      | Ok (_, db') => db'
      | Err _ => db
      end
  | CallCreateClaim tp tc tf agentId files ttl =>
      snd (HallState.createClaim tp tc tf agentId files ttl db)
  | CallListActiveClaims t => snd (HallState.listActiveClaims t db)
  | CallReleaseClaims agentId files =>
      snd (HallState.releaseClaims agentId files db)
  | CallStatus tp tn => snd (HallState.status tp tn db)
  end.

(** The clock does not run backwards: every reading is at or after the
    one before it, starting from [t]. *)
Fixpoint nondecreasing_from (t : Z) (l : list Z) : Prop :=
  match l with
  | [] => True
  | x :: l' => t <= x /\ nondecreasing_from x l'
  end.

(** [reachable t db]: [db] is the database after some sequence of calls
    from the empty database, and [t] is the latest reading of the clock. *)
Inductive reachable : Z -> HallDb -> Prop :=
| reachable_init : forall t0, reachable t0 emptyDb
| reachable_step : forall t db c,
    reachable t db ->
    nondecreasing_from t (readings c) ->
    reachable (last (readings c) t) (run c db).

(** A call all of whose clock readings agree: the clock does not tick
    while the method runs. *)
Definition single_reading (c : Call) : Prop :=
  match readings c with
  | [] => True
  | t :: l => Forall (eq t) l
  end.

(** Databases reachable by calls during which the clock does not tick. *)
Inductive reachable_untimed : HallDb -> Prop :=
| reachable_untimed_init : reachable_untimed emptyDb
| reachable_untimed_step : forall db c,
    reachable_untimed db -> single_reading c -> reachable_untimed (run c db).

(** The agent has a row on the path that is live at [t]. *)
Definition holds_live (t : Z) (agentId path : string) (db : HallDb) : bool :=
  existsb (fun r => String.eqb (agent_id r) agentId
                    && String.eqb (file_path r) path
                    && (t <? expires_at r))
    (claims db).

(** No two agents have rows on one path that are both live at [t]. *)
Definition exclusive_at (t : Z) (cs : list ClaimRow.t) : Prop :=
  forall r1 r2, In r1 cs -> In r2 cs ->
    file_path r1 = file_path r2 ->
    t < expires_at r1 -> t < expires_at r2 ->
    agent_id r1 = agent_id r2.

(** Every row of the claims table is live at [now]: the table has been
    swept at [now]. *)
Definition swept_at (now : Z) (db : HallDb) : Prop :=
  forall r, In r (claims db) -> now < expires_at r.

(** ** Example runs *)

(** agentA claims [src/a.ts] for 5 seconds at time 0. *)
Definition call_A : Call := CallCreateClaim 0 0 0 "agentA" ["src/a.ts"] 5.
Definition db_A : HallDb := run call_A emptyDb.

(** The clock reaches 9000 (a task is created then); the row of agentA,
    expired at 5000, has not been swept. *)
Definition db_late : HallDb :=
  run (CallCreateTask "task00000001" 9000 "Fix the build" None) db_A.

(** agentB claims the same path while the clock ticks from 4999 to 5000
    between the sweep and the conflict query. *)
Definition call_B_tick : Call :=
  CallCreateClaim 4999 5000 5000 "agentB" ["src/a.ts"] 5.
Definition db_tick : HallDb := run call_B_tick db_A.

(** A database with one task, and an evidence input for it. *)
Definition db_task : HallDb :=
  run (CallCreateTask "task00000001" 10 "Fix the build" None) emptyDb.

Definition evidence_input (out : JsString) : HallState.AttachEvidenceInput :=
  HallState.mkAttachEvidenceInput "task00000001" "agentA" "npm test" out.

(** agentB posts an intent for [src/a.ts] on that task while agentA holds
    the path. *)
Definition db_intent_B : HallDb :=
  run (CallPostIntent "intent000001" 20
         (HallState.mkPostIntentInput "task00000001" "agentB" ["src/a.ts"] None
            (Some "Tests pass; docs updated")))
    (run (CallCreateTask "task00000001" 10 "Fix the build" None) db_A).

Definition claim_args_B : Mcp.ClaimCreateArgs :=
  Mcp.mkClaimCreateArgs "agentB" ["src/a.ts"] None.

Definition release_args_A : Mcp.ClaimReleaseArgs :=
  Mcp.mkClaimReleaseArgs "agentA" None.

(** The agent has posted no intent that lists the file. *)
Definition lacks_intent (agentId file : string) (db : HallDb) : Prop :=
  forall r, In r (intents db) -> IntentRow.agent_id r = agentId ->
            ~ In file (IntentRow.files_json r).

(** The agent has posted an intent that lists the file. *)
Definition has_intent (agentId file : string) (db : HallDb) : Prop :=
  exists r, In r (intents db) /\ IntentRow.agent_id r = agentId
            /\ In file (IntentRow.files_json r).

(** The agent has no evidence recorded. *)
Definition no_evidence (agentId : string) (db : HallDb) : Prop :=
  forall r, In r (evidence db) -> EvidenceRow.agent_id r <> agentId.

(** The rows of one agent. *)
Definition rows_of (agentId : string) (rows : list ClaimRow.t)
  : list ClaimRow.t :=
  filter (fun r => String.eqb (agent_id r) agentId) rows.

(** What an entry of the [byAgent] map holds for agent [a] once the rows
    [rows] have been iterated. *)
Definition aggregates (a : string) (v : HallState.Entry)
  (rows : list ClaimRow.t) : Prop :=
  HallState.e_files v = map file_path (rows_of a rows)
  /\ (forall r, In r (rows_of a rows) ->
                expires_at r <= HallState.e_expiresAt v
                /\ HallState.e_createdAt v <= created_at r)
  /\ (exists r, In r (rows_of a rows)
                /\ expires_at r = HallState.e_expiresAt v)
  /\ (exists r, In r (rows_of a rows)
                /\ created_at r = HallState.e_createdAt v).

(** The [byAgent] map after the rows [rows]: one entry per agent that has
    a row, each entry aggregating the rows of its agent. *)
Definition grouped (rows : list ClaimRow.t) (m : HallState.ByAgent) : Prop :=
  NoDup (map fst m)
  /\ (forall a, In a (map fst m) <-> exists r, In r rows /\ agent_id r = a)
  /\ (forall a v, In (a, v) m -> aggregates a v rows).

(** agentB takes two more paths at different times. *)
Definition db_two_agents : HallDb :=
  run (CallCreateClaim 300 300 300 "agentB" ["src/c.ts"] 60)
    (run (CallCreateClaim 200 200 200 "agentB" ["src/b.ts"] 5) db_A).

(** [n] file events with time stamps [0 .. n-1]. *)
Definition file_events (n : nat) : list HallEvent :=
  map (fun k => file_changed "src/a.ts" (Z.of_nat k)) (seq 0 n).

(** ** core/state.ts: the list queries *)

(** Well-formed UTF-16: every code unit is below 2^16, every high
    surrogate (D800..DBFF) is followed by a low surrogate (DC00..DFFF), and
    no low surrogate stands alone.  Such a string survives the conversion
    to UTF-8 and back unchanged. *)
Definition is_high_surrogate (u : CodeUnit) : bool :=
  ((55296 <=? u) && (u <=? 56319))%N.

Definition is_low_surrogate (u : CodeUnit) : bool :=
  ((56320 <=? u) && (u <=? 57343))%N.

Fixpoint well_formed_utf16 (s : JsString) : bool :=
  match s with
  | [] => true
  | u :: rest =>
      if is_high_surrogate u then
        match rest with
        | l :: rest' => is_low_surrogate l && well_formed_utf16 rest'
        | [] => false
        end
      else if is_low_surrogate u then false
      else (u <? 65536)%N && well_formed_utf16 rest
  end.

(** [ORDER BY <key> DESC] on any table, as a stable insertion sort. *)
Fixpoint insert_by_desc {A : Type} (key : A -> Z) (x : A) (l : list A)
  : list A :=
  match l with
  | [] => [x]
  | y :: l' =>
      if key y <=? key x then x :: y :: l' else y :: insert_by_desc key x l'
  end.

Fixpoint order_by_desc {A : Type} (key : A -> Z) (l : list A) : list A :=
  match l with
  | [] => []
  | x :: l' => insert_by_desc key x (order_by_desc key l')
  end.

(** [LIMIT ?]: a negative limit is no limit in SQLite. *)
Definition sql_limit {A : Type} (n : Z) (l : list A) : list A :=
  if n <? 0 then l else firstn (Z.to_nat n) l.

Module HallQueries.

Definition task_of_row (r : TaskRow.t) : Task.t :=
  Task.mk (TaskRow.id r) (TaskRow.title r) (TaskRow.description r)
    (TaskRow.created_at r).

(** [JSON.parse(r.files_json)] gives back the array that was stored. *)
Definition intent_of_row (r : IntentRow.t) : Intent.t :=
  Intent.mk (IntentRow.id r) (IntentRow.task_id r) (IntentRow.agent_id r)
    (IntentRow.files_json r) (IntentRow.boundaries r)
    (IntentRow.acceptance_criteria r) (IntentRow.created_at r).

(** A TEXT column read through the driver gives back the string that was
    written when that string is well-formed UTF-16 ([well_formed_utf16]);
    a property that equates an output read back with the output written
    takes this as a premise. *)
Definition evidence_of_row (r : EvidenceRow.t) : Evidence.t :=
  Evidence.mk (EvidenceRow.id r) (EvidenceRow.task_id r)
    (EvidenceRow.agent_id r) (EvidenceRow.command r) (EvidenceRow.output r)
    (EvidenceRow.created_at r).

(** [listTasks(limit = 50)]: [None] is the omitted argument. *)
Definition listTasks (limit : option Z) (db : HallDb) : list Task.t :=
  let n := match limit with Some n => n | None => 50 end in
  map task_of_row (sql_limit n (order_by_desc TaskRow.created_at (tasks db))).

Definition listIntents (taskId : string) (db : HallDb) : list Intent.t :=
  map intent_of_row
    (order_by_desc IntentRow.created_at
       (filter (fun r => String.eqb (IntentRow.task_id r) taskId) (intents db))).

Definition listEvidence (taskId : string) (db : HallDb) : list Evidence.t :=
  map evidence_of_row
    (order_by_desc EvidenceRow.created_at
       (filter (fun r => String.eqb (EvidenceRow.task_id r) taskId)
          (evidence db))).

End HallQueries.

(** ** mcp.ts: the [hall_task_get] and [hall_overlap_check] tool handlers *)

Module McpQueries.

(** [z.string().min(4)] *)
Definition TaskGetInput_parse (taskId : string) : Result string :=
  if (4 <=? String.length taskId)%nat then Ok taskId else Err Mcp.zod_error.

Inductive TaskGetBody :=
| TaskFound (task : Task.t) (intents : list Intent.t)
    (evidence : list Evidence.t)
| TaskText (text : string).

(** [case 'hall_task_get'] *)
Definition hall_task_get (taskId : string) (db : HallDb)
  : TaskGetBody * option bool :=
  match TaskGetInput_parse taskId with
  | Err m => (TaskText ("Error: " ++ m)%string, Some true)
  | Ok input =>
      match HallState.getTask input db with
      | None => (TaskText ("Task not found: " ++ input)%string, Some true)
      | Some task =>
          (TaskFound task (HallQueries.listIntents input db)
             (HallQueries.listEvidence input db),
           None)
      end
  end.

Record Overlap := mkOverlap
  { o_file : string; o_claimedBy : string; o_expiresAt : Z }.

Inductive OverlapBody :=
| OverlapReport (hasOverlaps : bool) (overlaps : list Overlap)
    (checkedFiles : list string)
| OverlapText (text : string).

(** [OverlapCheckInput.parse]: 1 to 200 non-empty files. *)
Definition OverlapCheckInput_parse (files : list string)
  : Result (list string) :=
  if Mcp.valid_files files then Ok files else Err Mcp.zod_error.

(** [claim.files.includes(file)] *)
Definition includes (l : list string) (x : string) : bool :=
  existsb (String.eqb x) l.

(** The two nested loops: for each claim, for each requested file. *)
Definition find_overlaps (claims : list Claim.t) (files : list string)
  : list Overlap :=
  flat_map
    (fun claim =>
       map (fun file =>
              mkOverlap file (Claim.agentId claim) (Claim.expiresAt claim))
         (filter (includes (Claim.files claim)) files))
    claims.

(** [case 'hall_overlap_check']: [t_now] is the clock reading of
    [listActiveClaims]. *)
Definition hall_overlap_check (t_now : Z) (files : list string) (db : HallDb)
  : (OverlapBody * option bool) * HallDb :=
  match OverlapCheckInput_parse files with
  | Err m => ((OverlapText ("Error: " ++ m)%string, Some true), db)
  | Ok input =>
      let '(claims, db') := HallState.listActiveClaims t_now db in
      let overlaps := find_overlaps claims input in
      ((OverlapReport (0 <? Z.of_nat (List.length overlaps)) overlaps input,
        None),
       db')
  end.

End McpQueries.

(** ** Further notions for the properties *)

(** The primary key of a claims row. *)
Definition row_key (r : ClaimRow.t) : string * string :=
  (agent_id r, file_path r).

(** A sequence of calls, one after the other. *)
Definition run_all (cs : list Call) (db : HallDb) : HallDb :=
  fold_left (fun d c => run c d) cs db.

(** The number of files over a list of aggregate claims. *)
Definition total_files (cs : list Claim.t) : Z :=
  fold_right (fun c n => Z.of_nat (List.length (Claim.files c)) + n) 0 cs.

(** [l] is [l0] with rows appended. *)
Definition extends {A : Type} (l0 l : list A) : Prop :=
  exists added, l = l0 ++ added.

(** Newest first. *)
Definition newest_first {A : Type} (key : A -> Z) (l : list A) : Prop :=
  StronglySorted (fun x y => key y <= key x) l.

(** * Properties *)

(** ** Lists and the SQL statements *)

Section SqlFacts.

Lemma path_in_iff (files : list string) (p : string) :
  path_in files p = true <-> In p files.
Proof.
  unfold path_in. rewrite existsb_exists. split.
  - intros [x [Hin Heq]]. apply String.eqb_eq in Heq. now subst.
  - intros Hin. exists p. split; [assumption | apply String.eqb_refl].
Qed.

Lemma in_delete_expired (t : Z) (cs : list ClaimRow.t) (r : ClaimRow.t) :
  In r (delete_expired t cs) <-> In r cs /\ t < expires_at r.
Proof.
  unfold delete_expired. rewrite filter_In.
  rewrite negb_true_iff, Z.leb_gt. reflexivity.
Qed.

Lemma delete_expired_idempotent (t : Z) (cs : list ClaimRow.t) :
  delete_expired t (delete_expired t cs) = delete_expired t cs.
Proof.
  unfold delete_expired. induction cs as [|r cs IH]; simpl; [reflexivity|].
  destruct (negb (expires_at r <=? t)) eqn:E; simpl.
  - rewrite E. now f_equal.
  - exact IH.
Qed.

Lemma in_select_conflicting (a : string) (t : Z) (files : list string)
  (cs : list ClaimRow.t) (b : string) :
  In b (select_conflicting a t files cs) <->
  exists r, In r cs /\ agent_id r = b /\ b <> a
            /\ t < expires_at r /\ In (file_path r) files.
Proof.
  unfold select_conflicting. rewrite nodup_In, in_map_iff. split.
  - intros [r [Hb Hin]]. apply filter_In in Hin. destruct Hin as [Hin Hc].
    apply andb_true_iff in Hc. destruct Hc as [Hc Hp].
    apply andb_true_iff in Hc. destruct Hc as [Ha Ht].
    apply negb_true_iff, String.eqb_neq in Ha.
    apply Z.ltb_lt in Ht. apply path_in_iff in Hp.
    exists r. subst b. repeat split; assumption.
  - intros [r [Hin [Hb [Hne [Ht Hp]]]]]. exists r. split; [assumption|].
    apply filter_In. split; [assumption|].
    rewrite !andb_true_iff, negb_true_iff. repeat split.
    + apply String.eqb_neq. now rewrite Hb.
    + now apply Z.ltb_lt.
    + now apply path_in_iff.
Qed.

Lemma in_insert_or_replace (a p : string) (e c : Z) (cs : list ClaimRow.t)
  (r : ClaimRow.t) :
  In r (insert_or_replace a p e c cs) <->
  (In r cs /\ ~ (agent_id r = a /\ file_path r = p))
  \/ r = ClaimRow.mk a p e c.
Proof.
  unfold insert_or_replace, same_key. rewrite in_app_iff, filter_In.
  rewrite negb_true_iff, andb_false_iff, !String.eqb_neq. simpl.
  split.
  - intros [[Hin Hk] | [Heq | []]].
    + left. split; [assumption|]. intros [Ha Hp]. destruct Hk; contradiction.
    + right. now symmetry.
  - intros [[Hin Hk] | Heq].
    + left. split; [assumption|].
      destruct (string_dec (agent_id r) a) as [Ha|Ha]; [|now left].
      right. intros Hp. apply Hk. now split.
    + right. left. now symmetry.
Qed.

End SqlFacts.

(** ** The lease table along a run *)

Section LeaseTable.

Lemma length_pos_false {A : Type} (l : list A) :
  (0 <? Z.of_nat (List.length l)) = false -> l = [].
Proof.
  destruct l as [|x l]; [reflexivity|]. simpl List.length.
  intros H. apply Z.ltb_ge in H. lia.
Qed.

Lemma length_pos_true {A : Type} (l : list A) :
  (0 <? Z.of_nat (List.length l)) = true <-> l <> [].
Proof.
  destruct l as [|x l]; simpl List.length.
  - split; [discriminate | congruence].
  - split; [discriminate | intros _; apply Z.ltb_lt; lia].
Qed.

(** The rows after the transaction of [createClaim]: old rows, or the
    new row of a requested path. *)
Lemma in_tx (a : string) (e c : Z) (files : list string) :
  forall (cs : list ClaimRow.t) (r : ClaimRow.t),
    In r (fold_left (fun acc p => insert_or_replace a p e c acc) files cs) ->
    In r cs \/ exists p, In p files /\ r = ClaimRow.mk a p e c.
Proof.
  induction files as [|f files IH]; simpl; intros cs r Hin.
  - now left.
  - apply IH in Hin. destruct Hin as [Hin | [p [Hp Hr]]].
    + apply in_insert_or_replace in Hin. destruct Hin as [[Hin _] | Hr].
      * now left.
      * right. exists f. split; [now left | assumption].
    + right. exists p. split; [now right | assumption].
Qed.

Lemma exclusive_at_later (t t' : Z) (cs : list ClaimRow.t) :
  t <= t' -> exclusive_at t cs -> exclusive_at t' cs.
Proof.
  intros Hle H r1 r2 H1 H2 Hp Ht1 Ht2. apply H; try assumption; lia.
Qed.

Lemma exclusive_at_incl (t : Z) (cs cs' : list ClaimRow.t) :
  incl cs' cs -> exclusive_at t cs -> exclusive_at t cs'.
Proof.
  intros Hi H r1 r2 H1 H2. apply H; now apply Hi.
Qed.

Lemma incl_delete_expired (t : Z) (cs : list ClaimRow.t) :
  incl (delete_expired t cs) cs.
Proof. intros r Hr. now apply in_delete_expired in Hr. Qed.

(** The step of [createClaim]: whatever the table was before [t], from
    the reading of [findConflicts] on no two agents are live on a path. *)
Lemma createClaim_exclusive (t tp tc tf : Z) (a : string)
  (files : list string) (ttl : Z) (db : HallDb) :
  t <= tp -> tp <= tf ->
  exclusive_at t (claims db) ->
  exclusive_at tf (claims (snd (HallState.createClaim tp tc tf a files ttl db))).
Proof.
  intros Htp Htf Hex. unfold HallState.createClaim.
  set (db1 := HallState.pruneExpiredClaims tp db).
  assert (Hex1 : exclusive_at tf (claims db1)).
  { apply exclusive_at_later with (t := t); [lia|].
    apply exclusive_at_incl with (cs := claims db); [|assumption].
    simpl. apply incl_delete_expired. }
  destruct (0 <? Z.of_nat (List.length (HallState.findConflicts tf a files db1)))
    eqn:E; simpl snd.
  - exact Hex1.
  - apply length_pos_false in E. simpl claims.
    assert (Hnone : forall r, In r (claims db1) -> In (file_path r) files ->
                              tf < expires_at r -> agent_id r = a).
    { intros r Hr Hp Ht.
      destruct (string_dec (agent_id r) a) as [Ha|Ha]; [assumption|].
      exfalso. destruct files as [|f files']; [contradiction|].
      unfold HallState.findConflicts in E.
      assert (Hin : In (agent_id r)
                      (select_conflicting a tf (f :: files') (claims db1))).
      { apply in_select_conflicting. exists r. repeat split; assumption. }
      rewrite E in Hin. contradiction. }
    intros r1 r2 H1 H2 Hp Ht1 Ht2.
    apply in_tx in H1. apply in_tx in H2.
    destruct H1 as [H1 | [p1 [Hp1 Hr1]]], H2 as [H2 | [p2 [Hp2 Hr2]]].
    + now apply Hex1.
    + subst r2. simpl in *. apply Hnone; [assumption | now rewrite Hp | assumption].
    + subst r1. simpl in *. symmetry.
      apply Hnone; [assumption | now rewrite <- Hp | assumption].
    + subst r1 r2. reflexivity.
Qed.

(** Calls that do not touch the claims table. *)
Lemma claims_createTask id t title d db :
  claims (run (CallCreateTask id t title d) db) = claims db.
Proof.
  simpl. unfold HallState.createTask.
  now destruct (existsb _ (tasks db)).
Qed.

Lemma claims_postIntent id t input db :
  claims (run (CallPostIntent id t input) db) = claims db.
Proof.
  simpl. unfold HallState.postIntent.
  destruct (HallState.getTask _ db); [|reflexivity].
  now destruct (existsb _ (intents db)).
Qed.

Lemma claims_attachEvidence id t input db :
  claims (run (CallAttachEvidence id t input) db) = claims db.
Proof.
  simpl. unfold HallState.attachEvidence.
  destruct (HallState.getTask _ db); [|reflexivity].
  now destruct (existsb _ (evidence db)).
Qed.

(** The invariant of the lease table: from the latest reading of the
    clock on, no path has live rows of two agents. *)
Lemma reachable_exclusive (t : Z) (db : HallDb) :
  reachable t db -> exclusive_at t (claims db).
Proof.
  induction 1 as [t0 | t db c Hreach IH Hmono].
  - intros r1 r2 [].
  - destruct c as [id t1 title d | id t1 input | id t1 input
                  | tp tc tf a files ttl | t1 | a files | tp tn];
      simpl readings in *; simpl last; simpl in Hmono.
    + rewrite claims_createTask. apply exclusive_at_later with t; [lia | assumption].
    + rewrite claims_postIntent. apply exclusive_at_later with t; [lia | assumption].
    + rewrite claims_attachEvidence.
      apply exclusive_at_later with t; [lia | assumption].
    + apply createClaim_exclusive with (t := t); [lia | lia | assumption].
    + simpl. apply exclusive_at_later with t; [lia|].
      eapply exclusive_at_incl; [apply incl_delete_expired | assumption].
    + simpl. eapply exclusive_at_incl; [|eassumption].
      intros r Hr. now apply filter_In in Hr.
    + simpl. apply exclusive_at_later with t; [lia|].
      eapply exclusive_at_incl; [apply incl_delete_expired | assumption].
Qed.

Lemma holds_live_iff (t : Z) (a p : string) (db : HallDb) :
  holds_live t a p db = true <->
  exists r, In r (claims db) /\ agent_id r = a /\ file_path r = p
            /\ t < expires_at r.
Proof.
  unfold holds_live. rewrite existsb_exists. split.
  - intros [r [Hin Hc]]. rewrite !andb_true_iff in Hc.
    destruct Hc as [[Ha Hp] Ht].
    apply String.eqb_eq in Ha, Hp. apply Z.ltb_lt in Ht. now exists r.
  - intros [r [Hin [Ha [Hp Ht]]]]. exists r. split; [assumption|].
    rewrite !andb_true_iff. repeat split.
    + now apply String.eqb_eq.
    + now apply String.eqb_eq.
    + now apply Z.ltb_lt.
Qed.

End LeaseTable.

(** ** C1: mutual exclusion of live leases *)

Section MutualExclusion.

(** C1.  In every database reachable from the empty one by calls of the
    methods of [HallState], for every path [p] and every instant [now] of
    that database (the database is the current one from the latest reading
    [t] of the clock on), at most one agent holds a lease on [p] that is
    live at [now]. *)
Theorem mutual_exclusion_from_latest_reading
  (t : Z) (db : HallDb) (now : Z) (p a1 a2 : string) :
  reachable t db -> t <= now ->
  holds_live now a1 p db = true ->
  holds_live now a2 p db = true ->
  a1 = a2.
Proof.
  intros Hreach Hle H1 H2.
  apply holds_live_iff in H1. destruct H1 as [r1 [Hin1 [Ha1 [Hp1 Ht1]]]].
  apply holds_live_iff in H2. destruct H2 as [r2 [Hin2 [Ha2 [Hp2 Ht2]]]].
  subst a1 a2.
  apply (exclusive_at_later t now (claims db) Hle (reachable_exclusive t db Hreach));
    try assumption.
  congruence.
Qed.

Lemma reachable_db_A : reachable 0 db_A.
Proof.
  exact (reachable_step 0 emptyDb call_A (reachable_init 0)
           (conj (Z.le_refl 0) (conj (Z.le_refl 0) (conj (Z.le_refl 0) I)))).
Defined.

Lemma reachable_db_tick : reachable 5000 db_tick.
Proof.
  refine (reachable_step 0 db_A call_B_tick reachable_db_A _).
  simpl. repeat split; lia.
Defined.

Lemma mutual_exclusion_from_latest_reading_witness :
  reachable 0 db_A /\ 0 <= 1000
  /\ holds_live 1000 "agentA" "src/a.ts" db_A = true
  /\ "agentA" = "agentA".
Proof.
  split; [exact reachable_db_A|]. split; [lia|]. split; [reflexivity|].
  apply (mutual_exclusion_from_latest_reading 0 db_A 1000 "src/a.ts"
           "agentA" "agentA").
  - exact reachable_db_A.
  - lia.
  - reflexivity.
  - reflexivity.
Defined.

(** When no call sees the clock tick between its readings, the table
    holds no stale row of another agent next to a new one: every path has
    rows of one agent only, whatever the order of the calls' readings. *)
Lemma reachable_untimed_one_agent (db : HallDb) :
  reachable_untimed db ->
  forall r1 r2, In r1 (claims db) -> In r2 (claims db) ->
    file_path r1 = file_path r2 -> agent_id r1 = agent_id r2.
Proof.
  induction 1 as [| db c Hreach IH Hsingle]; [intros r1 r2 []|].
  destruct c as [id t1 title d | id t1 input | id t1 input
                | tp tc tf a files ttl | t1 | a files | tp tn].
  - now rewrite claims_createTask.
  - now rewrite claims_postIntent.
  - now rewrite claims_attachEvidence.
  - unfold single_reading in Hsingle. simpl in Hsingle.
    inversion Hsingle as [|? ? Htc Hrest]; subst.
    inversion Hrest as [|? ? Htf _]; subst.
    simpl run. unfold HallState.createClaim.
    set (db1 := HallState.pruneExpiredClaims tf db).
    assert (IH1 : forall r1 r2, In r1 (claims db1) -> In r2 (claims db1) ->
                    file_path r1 = file_path r2 -> agent_id r1 = agent_id r2).
    { intros r1 r2 H1 H2. simpl in H1, H2.
      apply in_delete_expired in H1, H2. now apply IH. }
    destruct (0 <? Z.of_nat (List.length (HallState.findConflicts tf a files db1)))
      eqn:E; simpl snd; [exact IH1|].
    apply length_pos_false in E. simpl claims.
    assert (Hnone : forall r, In r (claims db1) -> In (file_path r) files ->
                              agent_id r = a).
    { intros r Hr Hp.
      destruct (string_dec (agent_id r) a) as [Ha|Ha]; [assumption|].
      exfalso. destruct files as [|f files']; [contradiction|].
      unfold HallState.findConflicts in E.
      assert (Hin : In (agent_id r)
                      (select_conflicting a tf (f :: files') (claims db1))).
      { apply in_select_conflicting. exists r. repeat split; try assumption.
        simpl in Hr. now apply in_delete_expired in Hr. }
      rewrite E in Hin. contradiction. }
    intros r1 r2 H1 H2 Hp.
    apply in_tx in H1. apply in_tx in H2.
    destruct H1 as [H1 | [p1 [Hp1 Hr1]]], H2 as [H2 | [p2 [Hp2 Hr2]]].
    + now apply IH1.
    + subst r2. simpl in *. apply Hnone; [assumption | now rewrite Hp].
    + subst r1. simpl in *. symmetry.
      apply Hnone; [assumption | now rewrite <- Hp].
    + subst r1 r2. reflexivity.
  - intros r1 r2 H1 H2. simpl in H1, H2.
    apply in_delete_expired in H1, H2. now apply IH.
  - intros r1 r2 H1 H2. simpl in H1, H2.
    apply filter_In in H1, H2. now apply IH.
  - intros r1 r2 H1 H2. simpl in H1, H2.
    apply in_delete_expired in H1, H2. now apply IH.
Qed.

Lemma mutual_exclusion_without_tick
  (db : HallDb) (now : Z) (p a1 a2 : string) :
  reachable_untimed db ->
  holds_live now a1 p db = true ->
  holds_live now a2 p db = true ->
  a1 = a2.
Proof.
  intros Hreach H1 H2.
  apply holds_live_iff in H1. destruct H1 as [r1 [Hin1 [Ha1 [Hp1 _]]]].
  apply holds_live_iff in H2. destruct H2 as [r2 [Hin2 [Ha2 [Hp2 _]]]].
  subst a1 a2. apply (reachable_untimed_one_agent db Hreach); try assumption.
  congruence.
Qed.

End MutualExclusion.

(** ** C2: all-or-nothing acquisition *)

Section AllOrNothing.

(** C2.  When [createClaim] reports a conflict, the database after the
    call is the database before it with the expired rows swept, and
    nothing else: no row is inserted or updated, so every row of the
    claims table after the call, in particular any row of the caller on
    a requested path, was there, unchanged, before the call. *)
Theorem createClaim_all_or_nothing
  (tp tc tf : Z) (a : string) (files : list string) (ttl : Z) (db : HallDb) :
  HallState.conflictsWith (fst (HallState.createClaim tp tc tf a files ttl db))
    <> [] ->
  snd (HallState.createClaim tp tc tf a files ttl db)
    = HallState.pruneExpiredClaims tp db
  /\ (forall r, In r (claims (snd (HallState.createClaim tp tc tf a files ttl db)))
                -> In r (claims db)).
Proof.
  unfold HallState.createClaim.
  destruct (0 <? Z.of_nat
              (List.length
                 (HallState.findConflicts tf a files
                    (HallState.pruneExpiredClaims tp db)))) eqn:E;
    simpl fst; simpl snd; intros Hne.
  - split; [reflexivity|].
    intros r Hr. simpl in Hr. now apply in_delete_expired in Hr.
  - now contradiction Hne.
Qed.

Lemma createClaim_all_or_nothing_witness :
  HallState.conflictsWith
    (fst (HallState.createClaim 1 1 1 "agentB" ["src/a.ts"; "src/b.ts"] 900 db_A))
    = ["agentA"]
  /\ snd (HallState.createClaim 1 1 1 "agentB" ["src/a.ts"; "src/b.ts"] 900 db_A)
     = HallState.pruneExpiredClaims 1 db_A.
Proof.
  split; [reflexivity|].
  apply (createClaim_all_or_nothing 1 1 1 "agentB" ["src/a.ts"; "src/b.ts"]
           900 db_A).
  discriminate.
Defined.

End AllOrNothing.

(** ** C4: the lazy sweep *)

Section LazySweep.

Lemma pruneExpiredClaims_idempotent (t : Z) (db : HallDb) :
  HallState.pruneExpiredClaims t (HallState.pruneExpiredClaims t db)
  = HallState.pruneExpiredClaims t db.
Proof.
  unfold HallState.pruneExpiredClaims, with_claims. simpl.
  now rewrite delete_expired_idempotent.
Qed.

Lemma pruneExpiredClaims_swept (t : Z) (db : HallDb) :
  swept_at t (HallState.pruneExpiredClaims t db).
Proof. intros r Hr. simpl in Hr. now apply in_delete_expired in Hr. Qed.

(** C4, as amended.  [createClaim], [listActiveClaims] and [status]
    begin with the sweep: their result and the database they leave are
    those of the same call on the swept database, and no row with
    [expires_at <= now] is left ([now] being the reading of the sweep;
    for [createClaim] the new rows expire after it as the clock does not
    run backwards).  [releaseClaims] does not sweep: it deletes rows of
    the caller only and keeps every row of another agent, expired or
    not. *)
Theorem sweep_before_acquire_list_status :
  (forall tp tc tf a files ttl db,
      HallState.createClaim tp tc tf a files ttl db
      = HallState.createClaim tp tc tf a files ttl
          (HallState.pruneExpiredClaims tp db)
      /\ (tp <= tc ->
          swept_at tp (snd (HallState.createClaim tp tc tf a files ttl db))))
  /\ (forall t db,
        HallState.listActiveClaims t db
        = HallState.listActiveClaims t (HallState.pruneExpiredClaims t db)
        /\ snd (HallState.listActiveClaims t db)
           = HallState.pruneExpiredClaims t db
        /\ swept_at t (snd (HallState.listActiveClaims t db)))
  /\ (forall tp tn db,
        HallState.status tp tn db
        = HallState.status tp tn (HallState.pruneExpiredClaims tp db)
        /\ snd (HallState.status tp tn db) = HallState.pruneExpiredClaims tp db
        /\ swept_at tp (snd (HallState.status tp tn db)))
  /\ (forall a files db r,
        In r (claims db) -> agent_id r <> a ->
        In r (claims (snd (HallState.releaseClaims a files db)))).
Proof.
  split; [|split; [|split]].
  - intros tp tc tf a files ttl db. split.
    + unfold HallState.createClaim.
      now rewrite pruneExpiredClaims_idempotent.
    + intros Hle. unfold HallState.createClaim.
      destruct (0 <? Z.of_nat (List.length _)); simpl snd.
      * apply pruneExpiredClaims_swept.
      * intros r Hr. simpl in Hr. apply in_tx in Hr.
        destruct Hr as [Hr | [p [_ Hr]]].
        -- now apply in_delete_expired in Hr.
        -- subst r. simpl. lia.
  - intros t db. unfold HallState.listActiveClaims.
    rewrite pruneExpiredClaims_idempotent. repeat split.
    apply pruneExpiredClaims_swept.
  - intros tp tn db. unfold HallState.status.
    rewrite pruneExpiredClaims_idempotent. repeat split.
    apply pruneExpiredClaims_swept.
  - intros a files db r Hin Hne. simpl. apply filter_In. split; [assumption|].
    apply negb_true_iff. apply String.eqb_neq in Hne.
    unfold released_by. destruct files as [[|f fs]|]; rewrite Hne; reflexivity.
Qed.

Lemma sweep_before_acquire_list_status_witness :
  9000 <= 9000
  /\ In (ClaimRow.mk "agentA" "src/a.ts" 5000 0) (claims db_A)
  /\ swept_at 9000
       (snd (HallState.createClaim 9000 9000 9000 "agentB" ["src/b.ts"] 5 db_A)).
Proof.
  split; [lia|]. split; [now left|].
  apply (proj1 sweep_before_acquire_list_status 9000 9000 9000 "agentB"
           ["src/b.ts"] 5 db_A).
  lia.
Defined.

Lemma reachable_db_late : reachable 9000 db_late.
Proof.
  refine (reachable_step 0 db_A
            (CallCreateTask "task00000001" 9000 "Fix the build" None)
            reachable_db_A _).
  simpl. split; [lia | exact I].
Defined.

(** C4 as stated fails for [releaseClaims]: it reads no clock and sweeps
    nothing.  The row of agentA expired at 5000 and the clock has reached
    9000; agentB then releases its claims, and the expired row of agentA
    is still in the table, where a sweep at the time of the call would
    have deleted it. *)
Lemma releaseClaims_sweep_counterexample :
  ~ (forall (t : Z) (db : HallDb) (a : string) (files : option (list string)),
        reachable t db ->
        swept_at t (snd (HallState.releaseClaims a files db))).
Proof.
  intros H.
  specialize (H 9000 db_late "agentB" None reachable_db_late
                (ClaimRow.mk "agentA" "src/a.ts" 5000 0)).
  simpl in H. specialize (H (or_introl eq_refl)). lia.
Qed.

End LazySweep.

(** ** C5: self-renewal *)

Section SelfRenewal.

Lemma filter_key_insert_or_replace (a p : string) (e c : Z)
  (cs : list ClaimRow.t) :
  filter (same_key a p) (insert_or_replace a p e c cs) = [ClaimRow.mk a p e c].
Proof.
  unfold insert_or_replace. rewrite filter_app.
  assert (Hnil : filter (same_key a p)
                   (filter (fun r => negb (same_key a p r)) cs) = []).
  { induction cs as [|r cs IH]; simpl; [reflexivity|].
    destruct (same_key a p r) eqn:E; simpl; [assumption|].
    now rewrite E. }
  rewrite Hnil. simpl. unfold same_key. simpl.
  now rewrite !String.eqb_refl.
Qed.

(** C5.  In a reachable database, when agent [a] holds a lease on [p]
    that is live as [createClaim(a, [p], ttl)] starts (at the reading
    [tp] of its sweep), the call returns [conflictsWith = []], and
    afterwards the table has exactly one row for [(a, p)]: the new one,
    with [created_at] the reading [tc] and [expires_at] equal to
    [tc + max(5, ttl) * 1000]; the claim returned carries the same
    values. *)
Theorem createClaim_self_renewal
  (t tp tc tf : Z) (a p : string) (ttl : Z) (db : HallDb) :
  reachable t db ->
  nondecreasing_from t [tp; tc; tf] ->
  holds_live tp a p db = true ->
  HallState.conflictsWith (fst (HallState.createClaim tp tc tf a [p] ttl db)) = []
  /\ filter (same_key a p)
       (claims (snd (HallState.createClaim tp tc tf a [p] ttl db)))
     = [ClaimRow.mk a p (tc + Z.max 5 ttl * 1000) tc]
  /\ HallState.claim (fst (HallState.createClaim tp tc tf a [p] ttl db))
     = Claim.mk a [p] (tc + Z.max 5 ttl * 1000) tc.
Proof.
  intros Hreach Hmono Hlive. simpl in Hmono.
  destruct Hmono as [Htp [Htc [Htf _]]].
  apply holds_live_iff in Hlive.
  destruct Hlive as [ra [Hina [Haa [Hpa Hta]]]].
  assert (Hex : exclusive_at tp (claims db)).
  { apply exclusive_at_later with t; [assumption|].
    now apply reachable_exclusive. }
  assert (Hnone : HallState.findConflicts tf a [p]
                    (HallState.pruneExpiredClaims tp db) = []).
  { destruct (HallState.findConflicts tf a [p]
                (HallState.pruneExpiredClaims tp db)) as [|b l] eqn:E;
      [reflexivity|]. exfalso.
    assert (Hb : In b (b :: l)) by now left.
    rewrite <- E in Hb. simpl in Hb. apply in_select_conflicting in Hb.
    destruct Hb as [r [Hr [Hrb [Hne [Ht Hp]]]]].
    apply in_delete_expired in Hr. destruct Hr as [Hr _].
    destruct Hp as [Hp | []].
    apply Hne. rewrite <- Hrb, <- Haa.
    apply Hex; try assumption; [congruence | lia]. }
  unfold HallState.createClaim. rewrite Hnone. simpl.
  repeat split. apply filter_key_insert_or_replace.
Qed.

Lemma createClaim_self_renewal_witness :
  reachable 0 db_A /\ nondecreasing_from 0 [1000; 1000; 1001]
  /\ holds_live 1000 "agentA" "src/a.ts" db_A = true
  /\ filter (same_key "agentA" "src/a.ts")
       (claims (snd (HallState.createClaim 1000 1000 1001 "agentA"
                       ["src/a.ts"] 2 db_A)))
     = [ClaimRow.mk "agentA" "src/a.ts" 6000 1000].
Proof.
  assert (Hm : nondecreasing_from 0 [1000; 1000; 1001]).
  { simpl. repeat split; lia. }
  split; [exact reachable_db_A|]. split; [exact Hm|]. split; [reflexivity|].
  exact (proj1 (proj2 (createClaim_self_renewal 0 1000 1000 1001 "agentA"
                         "src/a.ts" 2 db_A reachable_db_A Hm eq_refl))).
Defined.

End SelfRenewal.

(** ** C6: truncation of the evidence output *)

Section OutputTruncation.

Lemma js_slice_prefix (s : JsString) (n : Z) :
  0 <= n <= js_length s -> js_slice s 0 n = firstn (Z.to_nat n) s.
Proof.
  intros [Hn Hlen]. unfold js_slice, js_clamp_index.
  rewrite Z.ltb_irrefl.
  replace (n <? 0) with false by (symmetry; apply Z.ltb_ge; lia).
  rewrite (Z.min_l 0) by (unfold js_length; lia).
  rewrite (Z.min_l n) by assumption.
  rewrite Z.sub_0_r, Z.max_l by assumption.
  reflexivity.
Qed.

Lemma clip_marker_text :
  clip_marker = js_of_string (newline ++ "[clipped to 20000 chars]")%string.
Proof. reflexivity. Qed.

Lemma clipOutput_short (s : JsString) :
  js_length s <= 20000 -> clipOutput s = s.
Proof.
  intros H. unfold clipOutput.
  replace (js_length s <=? MAX_OUTPUT_CHARS) with true; [reflexivity|].
  symmetry. apply Z.leb_le. exact H.
Qed.

Lemma clipOutput_long (s : JsString) :
  20000 < js_length s ->
  clipOutput s
  = firstn (Z.to_nat 20000) s
    ++ js_of_string (newline ++ "[clipped to 20000 chars]")%string.
Proof.
  intros H. unfold clipOutput.
  replace (js_length s <=? MAX_OUTPUT_CHARS) with false
    by (symmetry; apply Z.leb_gt; exact H).
  rewrite js_slice_prefix by (unfold MAX_OUTPUT_CHARS; lia).
  rewrite clip_marker_text. reflexivity.
Qed.

(** C6.  A call of [attachEvidence] for an existing task (with a fresh
    identifier) returns an evidence record and appends one row to the
    evidence table, both with the same output: the given output itself
    when it has at most 20000 code units; otherwise its first 20000 code
    units followed by a line feed and [[clipped to 20000 chars]], 20025
    code units in all.  The bound is the constant [MAX_OUTPUT_CHARS];
    the call has no argument for it. *)
Theorem attachEvidence_output_truncation
  (id : string) (t : Z) (input : HallState.AttachEvidenceInput) (db : HallDb) :
  HallState.getTask (HallState.ae_taskId input) db <> None ->
  existsb (fun r => String.eqb (EvidenceRow.id r) id) (evidence db) = false ->
  exists ev db',
    HallState.attachEvidence id t input db = Ok (ev, db')
    /\ evidence db'
       = evidence db
         ++ [EvidenceRow.mk id (HallState.ae_taskId input)
               (HallState.ae_agentId input) (HallState.ae_command input)
               (Evidence.output ev) t]
    /\ (js_length (HallState.ae_output input) <= 20000 ->
        Evidence.output ev = HallState.ae_output input)
    /\ (20000 < js_length (HallState.ae_output input) ->
        Evidence.output ev
        = firstn (Z.to_nat 20000) (HallState.ae_output input)
          ++ js_of_string (newline ++ "[clipped to 20000 chars]")%string
        /\ js_length (Evidence.output ev) = 20025).
Proof.
  intros Htask Hfresh. unfold HallState.attachEvidence.
  destruct (HallState.getTask (HallState.ae_taskId input) db) as [task|];
    [|now contradiction Htask].
  rewrite Hfresh.
  eexists. eexists. split; [reflexivity|].
  split; [reflexivity|]. split.
  - intros Hshort. cbn [Evidence.output]. now apply clipOutput_short.
  - intros Hlong. cbn [Evidence.output].
    rewrite (clipOutput_long _ Hlong). split; [reflexivity|].
    unfold js_length in *. rewrite length_app, length_firstn.
    rewrite Nat.min_l by lia.
    replace (List.length (js_of_string (newline ++ "[clipped to 20000 chars]")%string))
      with 25%nat by reflexivity.
    lia.
Qed.

Lemma attachEvidence_output_truncation_witness :
  HallState.getTask "task00000001" db_task <> None
  /\ exists ev db',
       HallState.attachEvidence "ev0000000001" 20
         (evidence_input (js_of_string "ok")) db_task = Ok (ev, db')
       /\ Evidence.output ev = js_of_string "ok".
Proof.
  assert (Htask : HallState.getTask "task00000001" db_task <> None)
    by discriminate.
  split; [exact Htask|].
  destruct (attachEvidence_output_truncation "ev0000000001" 20
              (evidence_input (js_of_string "ok")) db_task Htask eq_refl)
    as [ev [db' [Hrun [_ [Hshort _]]]]].
  exists ev, db'. split; [exact Hrun|].
  apply Hshort. unfold js_length. simpl. lia.
Defined.

(** An output of 20001 code units loses its last one and gains the
    marker. *)
Example clipOutput_20001 :
  js_length (clipOutput (repeat 120%N (Z.to_nat 20001))) = 20025
  /\ skipn (Z.to_nat 20000) (clipOutput (repeat 120%N (Z.to_nat 20001)))
     = clip_marker.
Proof. split; vm_compute; reflexivity. Qed.

End OutputTruncation.

(** ** The tool handlers: C3, C7, C10 *)

Section ToolHandlers.

Lemma filter_none {A : Type} (f : A -> bool) (l : list A) :
  (forall x, In x l -> f x = false) -> filter f l = [].
Proof.
  induction l as [|x l IH]; intros H; simpl; [reflexivity|].
  rewrite (H x (or_introl eq_refl)). apply IH.
  intros y Hy. apply H. now right.
Qed.

Lemma filter_all {A : Type} (f : A -> bool) (l : list A) :
  (forall x, In x l -> f x = true) -> filter f l = l.
Proof.
  induction l as [|x l IH]; intros H; simpl; [reflexivity|].
  rewrite (H x (or_introl eq_refl)). f_equal. apply IH.
  intros y Hy. apply H. now right.
Qed.

Lemma with_claims_same (db : HallDb) : with_claims db (claims db) = db.
Proof. now destruct db. Qed.

(** After a sweep at [tp <= tf], the conflict query at [tf] sees the
    same rows as on the table before the sweep. *)
Lemma in_findConflicts_after_sweep (tp tf : Z) (a : string)
  (files : list string) (db : HallDb) (b : string) :
  tp <= tf ->
  In b (HallState.findConflicts tf a files (HallState.pruneExpiredClaims tp db))
  <-> b <> a /\ exists p, In p files /\ holds_live tf b p db = true.
Proof.
  intros Hle. unfold HallState.findConflicts. destruct files as [|f files].
  - split; [intros [] | intros [_ [p [[] _]]]].
  - simpl claims. rewrite in_select_conflicting. split.
    + intros [r [Hr [Hb [Hne [Ht Hp]]]]].
      apply in_delete_expired in Hr. destruct Hr as [Hr _].
      split; [assumption|]. exists (file_path r). split; [assumption|].
      apply holds_live_iff. now exists r.
    + intros [Hne [p [Hp Hl]]]. apply holds_live_iff in Hl.
      destruct Hl as [r [Hr [Hb [Hrp Ht]]]]. exists r.
      split; [apply in_delete_expired; split; [assumption | lia]|].
      repeat split; try assumption. now rewrite Hrp.
Qed.

Lemma NoDup_findConflicts (t : Z) (a : string) (files : list string)
  (db : HallDb) : NoDup (HallState.findConflicts t a files db).
Proof.
  unfold HallState.findConflicts. destruct files; [constructor|].
  apply NoDup_nodup.
Qed.

Lemma intent_missing_iff (a f : string) (db : HallDb) :
  existsb (WorkflowGuard.intent_covers a f) (intents db) = false
  <-> lacks_intent a f db.
Proof.
  unfold lacks_intent. split.
  - intros H r Hr Ha Hf.
    assert (Ht : existsb (WorkflowGuard.intent_covers a f) (intents db) = true).
    { apply existsb_exists. exists r. split; [assumption|].
      unfold WorkflowGuard.intent_covers. apply andb_true_iff. split.
      - now apply String.eqb_eq.
      - apply existsb_exists. exists f. split; [assumption | apply String.eqb_refl]. }
    congruence.
  - intros H. apply not_true_is_false. intros Ht.
    apply existsb_exists in Ht. destruct Ht as [r [Hr Hc]].
    unfold WorkflowGuard.intent_covers in Hc. apply andb_true_iff in Hc.
    destruct Hc as [Ha Hf]. apply String.eqb_eq in Ha.
    apply existsb_exists in Hf. destruct Hf as [g [Hg Hfg]].
    apply String.eqb_eq in Hfg. subst g. now apply (H r).
Qed.

Lemma intent_covered_iff (a f : string) (db : HallDb) :
  existsb (WorkflowGuard.intent_covers a f) (intents db) = true
  <-> has_intent a f db.
Proof.
  unfold has_intent. rewrite existsb_exists. split.
  - intros [r [Hr Hc]]. unfold WorkflowGuard.intent_covers in Hc.
    apply andb_true_iff in Hc. destruct Hc as [Ha Hf].
    apply String.eqb_eq in Ha. apply existsb_exists in Hf.
    destruct Hf as [g [Hg Hfg]]. apply String.eqb_eq in Hfg. subst g.
    now exists r.
  - intros [r [Hr [Ha Hf]]]. exists r. split; [assumption|].
    unfold WorkflowGuard.intent_covers. apply andb_true_iff. split.
    + now apply String.eqb_eq.
    + apply existsb_exists. exists f. split; [assumption | apply String.eqb_refl].
Qed.

Lemma in_missingFiles (a f : string) (files : list string) (db : HallDb) :
  In f (WorkflowGuard.missingFiles (WorkflowGuard.hasIntentForFiles a files db))
  <-> In f files /\ lacks_intent a f db.
Proof.
  unfold WorkflowGuard.hasIntentForFiles. simpl.
  rewrite filter_In, negb_true_iff, intent_missing_iff. reflexivity.
Qed.

Lemma no_evidence_iff (a : string) (db : HallDb) :
  WorkflowGuard.hasEvidence (WorkflowGuard.hasEvidenceForTask a db) = false
  <-> no_evidence a db.
Proof.
  unfold no_evidence. simpl. split.
  - intros H r Hr Ha.
    assert (Ht : existsb (fun r => String.eqb (EvidenceRow.agent_id r) a)
                   (evidence db) = true).
    { apply existsb_exists. exists r. split; [assumption|].
      now apply String.eqb_eq. }
    congruence.
  - intros H. apply not_true_is_false. intros Ht.
    apply existsb_exists in Ht. destruct Ht as [r [Hr Ha]].
    apply String.eqb_eq in Ha. now apply (H r).
Qed.

(** The paths [getAgentClaims] returns are those the agent holds live. *)
Lemma in_getAgentClaims (t : Z) (a p : string) (db : HallDb) :
  In p (fst (WorkflowGuard.getAgentClaims t a db))
  <-> holds_live t a p db = true.
Proof.
  unfold WorkflowGuard.getAgentClaims. simpl fst.
  rewrite in_map_iff, holds_live_iff. split.
  - intros [r [Hp Hr]]. apply filter_In in Hr. destruct Hr as [Hr Ha].
    simpl in Hr. apply in_delete_expired in Hr. destruct Hr as [Hr Ht].
    apply String.eqb_eq in Ha. now exists r.
  - intros [r [Hr [Ha [Hp Ht]]]]. exists r. split; [assumption|].
    apply filter_In. split.
    + simpl. apply in_delete_expired. now split.
    + now apply String.eqb_eq.
Qed.

(** C7, as amended.  For a request that passes the input schema and the
    intent gate (the caller has an intent for every requested file), when
    some requested path has a live lease of another agent, [hall_claim]
    returns a result without [isError] whose body has status [conflict]
    and whose [conflictsWith] lists, each once, exactly the agents other
    than the caller that hold a lease live at the reading [tf] of the
    conflict query on a requested path. *)
Theorem hall_claim_conflict_is_data
  (tp tc tf : Z) (args : Mcp.ClaimCreateArgs) (db : HallDb) :
  Mcp.ClaimCreateInput_parse args = Ok args ->
  (forall f, In f (Mcp.cc_files args) -> has_intent (Mcp.cc_agentId args) f db) ->
  tp <= tf ->
  (exists p b, In p (Mcp.cc_files args) /\ b <> Mcp.cc_agentId args
               /\ holds_live tf b p db = true) ->
  exists claim cw msg,
    fst (Mcp.hall_claim tp tc tf args db)
    = Mcp.mkToolResult (Mcp.ClaimConflict claim cw msg) None
    /\ Mcp.status_of (Mcp.content (fst (Mcp.hall_claim tp tc tf args db)))
       = Some "conflict"
    /\ NoDup cw
    /\ (forall b, In b cw <->
                  b <> Mcp.cc_agentId args
                  /\ exists p, In p (Mcp.cc_files args)
                               /\ holds_live tf b p db = true).
Proof.
  intros Hparse Hintent Hle [p [b [Hp [Hb Hlive]]]].
  unfold Mcp.hall_claim. rewrite Hparse.
  assert (Hgate : WorkflowGuard.hasIntent
                    (WorkflowGuard.hasIntentForFiles (Mcp.cc_agentId args)
                       (Mcp.cc_files args) db) = true).
  { unfold WorkflowGuard.hasIntentForFiles.
    cbn [WorkflowGuard.hasIntent].
    rewrite filter_none; [reflexivity|].
    intros f Hf. apply negb_false_iff. apply intent_covered_iff.
    now apply Hintent. }
  rewrite Hgate. cbn [negb].
  unfold HallState.createClaim.
  set (cw := HallState.findConflicts tf (Mcp.cc_agentId args) (Mcp.cc_files args)
               (HallState.pruneExpiredClaims tp db)).
  assert (Hin : In b cw).
  { apply in_findConflicts_after_sweep; [assumption|].
    split; [assumption|]. now exists p. }
  destruct (0 <? Z.of_nat (List.length cw)) eqn:E.
  - cbn [HallState.conflictsWith HallState.claim fst snd]. rewrite E.
    eexists. exists cw. eexists. cbn [fst Mcp.content Mcp.status_of].
    split; [reflexivity|]. split; [reflexivity|].
    split; [apply NoDup_findConflicts|].
    intros b'. now apply in_findConflicts_after_sweep.
  - apply length_pos_false in E. rewrite E in Hin. contradiction.
Qed.

Lemma hall_claim_conflict_is_data_witness :
  Mcp.ClaimCreateInput_parse claim_args_B = Ok claim_args_B
  /\ holds_live 100 "agentA" "src/a.ts" db_intent_B = true
  /\ exists claim cw msg,
       fst (Mcp.hall_claim 100 100 100 claim_args_B db_intent_B)
       = Mcp.mkToolResult (Mcp.ClaimConflict claim cw msg) None
       /\ (forall b, In b cw <->
                  b <> "agentB"
                  /\ exists p, In p ["src/a.ts"]
                               /\ holds_live 100 b p db_intent_B = true).
Proof.
  split; [reflexivity|]. split; [reflexivity|].
  destruct (hall_claim_conflict_is_data 100 100 100 claim_args_B db_intent_B)
    as [claim [cw [msg [Hres [_ [_ Hcw]]]]]].
  - reflexivity.
  - intros f [Hf | []]. subst f.
    exists (IntentRow.mk "intent000001" "task00000001" "agentB"
              ["src/a.ts"] None (Some "Tests pass; docs updated") 20).
    split; [simpl; now left|]. split; [reflexivity | simpl; now left].
  - lia.
  - exists "src/a.ts", "agentA". split; [now left|].
    split; [discriminate | reflexivity].
  - exists claim, cw, msg. split; [exact Hres | exact Hcw].
Defined.

(** C7 as stated fails when the caller has posted no intent: agentA holds
    a live lease on [src/a.ts], agentB asks for it without an intent, and
    the result is the [NO_INTENT] rejection with [isError: true], not a
    conflict. *)
Lemma hall_claim_conflict_counterexample :
  ~ (forall (tp tc tf : Z) (args : Mcp.ClaimCreateArgs) (db : HallDb),
       Mcp.ClaimCreateInput_parse args = Ok args ->
       tp <= tf ->
       (exists p b, In p (Mcp.cc_files args) /\ b <> Mcp.cc_agentId args
                    /\ holds_live tf b p db = true) ->
       Mcp.isError (fst (Mcp.hall_claim tp tc tf args db)) = None
       /\ Mcp.status_of (Mcp.content (fst (Mcp.hall_claim tp tc tf args db)))
          = Some "conflict").
Proof.
  intros H.
  destruct (H 100 100 100 claim_args_B db_A eq_refl (Z.le_refl 100)) as [Herr _].
  - exists "src/a.ts", "agentA". split; [now left|].
    split; [discriminate | reflexivity].
  - discriminate Herr.
Qed.

(** C3, as amended.  For a request that passes the input schema:
    [hall_claim] is rejected with reason [NO_INTENT] and [isError: true]
    whenever some requested file has no intent of the caller, the
    rejection lists exactly the requested files without one, and the
    database is left as it was; [hall_claim_release] is rejected with
    reason [NO_EVIDENCE] and [isError: true] whenever the caller holds at
    least one live lease and has no evidence recorded, and only the sweep
    has touched the database: the caller's leases are still held. *)
Theorem workflow_ordering :
  (forall (tp tc tf : Z) (args : Mcp.ClaimCreateArgs) (db : HallDb),
      Mcp.ClaimCreateInput_parse args = Ok args ->
      (exists f, In f (Mcp.cc_files args)
                 /\ lacks_intent (Mcp.cc_agentId args) f db) ->
      exists msg missing,
        Mcp.hall_claim tp tc tf args db
        = (Mcp.mkToolResult (Mcp.RejectedNoIntent msg missing) (Some true), db)
        /\ Mcp.reason_of (Mcp.RejectedNoIntent msg missing) = Some "NO_INTENT"
        /\ (forall f, In f missing <->
                      In f (Mcp.cc_files args)
                      /\ lacks_intent (Mcp.cc_agentId args) f db))
  /\ (forall (t : Z) (args : Mcp.ClaimReleaseArgs) (db : HallDb),
        Mcp.ClaimReleaseInput_parse args = Ok args ->
        (exists p, holds_live t (Mcp.cr_agentId args) p db = true) ->
        no_evidence (Mcp.cr_agentId args) db ->
        exists msg active,
          Mcp.hall_claim_release t args db
          = (Mcp.mkToolResult (Mcp.RejectedNoEvidence msg active) (Some true),
             HallState.pruneExpiredClaims t db)
          /\ Mcp.reason_of (Mcp.RejectedNoEvidence msg active)
             = Some "NO_EVIDENCE"
          /\ (forall p, In p active <->
                        holds_live t (Mcp.cr_agentId args) p db = true)).
Proof.
  split.
  - intros tp tc tf args db Hparse [f [Hf Hlack]].
    unfold Mcp.hall_claim. rewrite Hparse.
    assert (Hin : In f (WorkflowGuard.missingFiles
                          (WorkflowGuard.hasIntentForFiles (Mcp.cc_agentId args)
                             (Mcp.cc_files args) db)))
      by (apply in_missingFiles; now split).
    assert (Hgate : WorkflowGuard.hasIntent
                      (WorkflowGuard.hasIntentForFiles (Mcp.cc_agentId args)
                         (Mcp.cc_files args) db) = false).
    { unfold WorkflowGuard.hasIntentForFiles in *.
      cbn [WorkflowGuard.hasIntent WorkflowGuard.missingFiles] in *.
      destruct (filter _ (Mcp.cc_files args)); [contradiction | reflexivity]. }
    rewrite Hgate. cbn [negb].
    eexists. eexists. split; [reflexivity|]. split; [reflexivity|].
    intros g. apply in_missingFiles.
  - intros t args db Hparse [p Hlive] Hnoev.
    unfold Mcp.hall_claim_release. rewrite Hparse.
    destruct (WorkflowGuard.getAgentClaims t (Mcp.cr_agentId args) db)
      as [active db1] eqn:E.
    assert (Hdb1 : db1 = HallState.pruneExpiredClaims t db)
      by (unfold WorkflowGuard.getAgentClaims in E; now inversion E).
    assert (Hactive : forall q, In q active <->
                                holds_live t (Mcp.cr_agentId args) q db = true).
    { intros q. rewrite <- in_getAgentClaims. now rewrite E. }
    assert (Hpos : (0 <? Z.of_nat (List.length active)) = true).
    { apply length_pos_true. intros Hnil. apply Hactive in Hlive.
      rewrite Hnil in Hlive. contradiction. }
    assert (Hev : WorkflowGuard.hasEvidence
                    (WorkflowGuard.hasEvidenceForTask (Mcp.cr_agentId args) db1)
                  = false).
    { apply no_evidence_iff. subst db1. exact Hnoev. }
    rewrite Hpos, Hev. cbn [negb]. subst db1.
    eexists. exists active. split; [reflexivity|]. split; [reflexivity|].
    exact Hactive.
Qed.

Lemma workflow_ordering_witness :
  Mcp.ClaimReleaseInput_parse release_args_A = Ok release_args_A
  /\ holds_live 100 "agentA" "src/a.ts" db_A = true
  /\ no_evidence "agentA" db_A
  /\ exists msg active,
       Mcp.hall_claim_release 100 release_args_A db_A
       = (Mcp.mkToolResult (Mcp.RejectedNoEvidence msg active) (Some true),
          HallState.pruneExpiredClaims 100 db_A).
Proof.
  assert (Hnoev : no_evidence "agentA" db_A) by (intros r []).
  split; [reflexivity|]. split; [reflexivity|]. split; [exact Hnoev|].
  destruct (proj2 workflow_ordering 100 release_args_A db_A eq_refl
              (ex_intro _ "src/a.ts" eq_refl) Hnoev)
    as [msg [active [Hres _]]].
  exists msg, active. exact Hres.
Defined.

(** C3 as stated fails in its second half: an agent without evidence and
    without active claims is not rejected; the release returns status
    [ok]. *)
Lemma release_without_evidence_counterexample :
  ~ (forall (t : Z) (args : Mcp.ClaimReleaseArgs) (db : HallDb),
       Mcp.ClaimReleaseInput_parse args = Ok args ->
       no_evidence (Mcp.cr_agentId args) db ->
       Mcp.reason_of (Mcp.content (fst (Mcp.hall_claim_release t args db)))
       = Some "NO_EVIDENCE").
Proof.
  intros H.
  assert (Hnoev : no_evidence "agentA" emptyDb) by (intros r []).
  specialize (H 100 release_args_A emptyDb eq_refl Hnoev).
  discriminate H.
Qed.

(** C10.  When the agent of a release request holds no live lease,
    [hall_claim_release] returns status [ok] with [released = 0] and no
    [isError], whatever the evidence table holds; the evidence check is
    not consulted, and the database is the swept one. *)
Theorem release_without_active_claims
  (t : Z) (args : Mcp.ClaimReleaseArgs) (db : HallDb) :
  Mcp.ClaimReleaseInput_parse args = Ok args ->
  (forall p, holds_live t (Mcp.cr_agentId args) p db = false) ->
  Mcp.hall_claim_release t args db
  = (Mcp.mkToolResult (Mcp.ReleaseOk 0 (Mcp.cr_files args)) None,
     HallState.pruneExpiredClaims t db)
  /\ Mcp.status_of (Mcp.ReleaseOk 0 (Mcp.cr_files args)) = Some "ok".
Proof.
  intros Hparse Hnone. split; [|reflexivity].
  unfold Mcp.hall_claim_release. rewrite Hparse.
  assert (Hrows : forall r,
             In r (claims (HallState.pruneExpiredClaims t db)) ->
             String.eqb (agent_id r) (Mcp.cr_agentId args) = false).
  { intros r Hr. simpl in Hr. apply in_delete_expired in Hr.
    destruct Hr as [Hr Ht]. apply String.eqb_neq. intros Ha.
    specialize (Hnone (file_path r)).
    assert (Hl : holds_live t (Mcp.cr_agentId args) (file_path r) db = true)
      by (apply holds_live_iff; now exists r).
    congruence. }
  unfold WorkflowGuard.getAgentClaims.
  rewrite (filter_none _ _ Hrows). cbn [map List.length Z.of_nat].
  cbn [Z.ltb Z.compare].
  unfold HallState.releaseClaims.
  assert (Hrel : forall r,
             In r (claims (HallState.pruneExpiredClaims t db)) ->
             released_by (Mcp.cr_agentId args) (Mcp.cr_files args) r = false).
  { intros r Hr. unfold released_by.
    destruct (Mcp.cr_files args) as [[|f fs]|]; rewrite (Hrows r Hr); reflexivity. }
  rewrite (filter_none _ _ Hrel).
  rewrite filter_all.
  - now rewrite with_claims_same.
  - intros r Hr. now rewrite (Hrel r Hr).
Qed.

(** The lease of agentA expired at 5000 and has not been swept; at 9000
    agentA holds no live lease and has no evidence. *)
Lemma release_without_active_claims_witness :
  Mcp.ClaimReleaseInput_parse release_args_A = Ok release_args_A
  /\ (forall p, holds_live 9000 "agentA" p db_A = false)
  /\ no_evidence "agentA" db_A
  /\ Mcp.hall_claim_release 9000 release_args_A db_A
     = (Mcp.mkToolResult (Mcp.ReleaseOk 0 None) None,
        HallState.pruneExpiredClaims 9000 db_A).
Proof.
  assert (Hnone : forall p, holds_live 9000 "agentA" p db_A = false).
  { intros p. unfold holds_live. simpl. now rewrite andb_false_r. }
  split; [reflexivity|]. split; [exact Hnone|]. split; [intros r []|].
  apply (release_without_active_claims 9000 release_args_A db_A).
  - reflexivity.
  - exact Hnone.
Defined.

End ToolHandlers.

(** ** C8: the aggregate claims *)

Section Aggregation.

Import HallState.

Lemma by_agent_get_none (a : string) (m : ByAgent) :
  by_agent_get a m = None <-> ~ In a (map fst m).
Proof.
  induction m as [|[k v] m IH]; simpl.
  - split; [intros _ [] | reflexivity].
  - destruct (String.eqb k a) eqn:E.
    + apply String.eqb_eq in E. split; [discriminate|].
      intros H. exfalso. apply H. now left.
    + apply String.eqb_neq in E. rewrite IH. split.
      * intros H [Hk | Hin]; [contradiction | now apply H].
      * intros H Hin. apply H. now right.
Qed.

Lemma by_agent_update_keys (a : string) (f : Entry -> Entry) (m : ByAgent) :
  map fst (by_agent_update a f m) = map fst m.
Proof.
  induction m as [|[k v] m IH]; simpl; [reflexivity|].
  destruct (String.eqb k a); simpl; [reflexivity | now rewrite IH].
Qed.

Lemma in_by_agent_update (a : string) (f : Entry -> Entry) (m : ByAgent) :
  NoDup (map fst m) ->
  forall k v, In (k, v) (by_agent_update a f m) ->
    (k <> a /\ In (k, v) m) \/ (k = a /\ exists v0, In (a, v0) m /\ v = f v0).
Proof.
  induction m as [|[k0 v0] m IH]; simpl; intros Hnd k v Hin; [contradiction|].
  inversion Hnd as [|? ? Hnotin Hnd']; subst.
  destruct (String.eqb k0 a) eqn:E.
  - apply String.eqb_eq in E. subst k0. destruct Hin as [Heq | Hin].
    + inversion Heq; subst. right. split; [reflexivity|].
      exists v0. split; [now left | reflexivity].
    + left. split; [|now right]. intros Hk. subst k.
      apply Hnotin. apply in_map_iff. now exists (a, v).
  - apply String.eqb_neq in E. destruct Hin as [Heq | Hin].
    + inversion Heq; subst. left. split; [assumption | now left].
    + destruct (IH Hnd' k v Hin) as [[Hk Hm] | [Hk [v1 [Hm Hv]]]].
      * left. split; [assumption | now right].
      * right. split; [assumption|]. exists v1. split; [now right | assumption].
Qed.

Lemma rows_of_app (a : string) (l l' : list ClaimRow.t) :
  rows_of a (l ++ l') = rows_of a l ++ rows_of a l'.
Proof. unfold rows_of. apply filter_app. Qed.

Lemma in_rows_of (a : string) (l : list ClaimRow.t) (r : ClaimRow.t) :
  In r (rows_of a l) <-> In r l /\ agent_id r = a.
Proof.
  unfold rows_of. rewrite filter_In. now rewrite String.eqb_eq.
Qed.

Lemma rows_of_other (a : string) (r : ClaimRow.t) :
  agent_id r <> a -> rows_of a [r] = [].
Proof.
  intros H. unfold rows_of. simpl.
  apply String.eqb_neq in H. now rewrite H.
Qed.

Lemma rows_of_same (r : ClaimRow.t) : rows_of (agent_id r) [r] = [r].
Proof. unfold rows_of. simpl. now rewrite String.eqb_refl. Qed.

Lemma rows_of_nil_iff (a : string) (l : list ClaimRow.t) :
  rows_of a l = [] <-> ~ exists r, In r l /\ agent_id r = a.
Proof.
  split.
  - intros H [r Hr]. apply in_rows_of in Hr. rewrite H in Hr. contradiction.
  - intros H. destruct (rows_of a l) as [|r l'] eqn:E; [reflexivity|].
    exfalso. apply H. exists r. apply in_rows_of. rewrite E. now left.
Qed.

(** A row of another agent leaves the entry's aggregate as it is. *)
Lemma aggregates_other (a : string) (v : Entry) (l : list ClaimRow.t)
  (r : ClaimRow.t) :
  agent_id r <> a -> aggregates a v l -> aggregates a v (l ++ [r]).
Proof.
  intros Hne H. unfold aggregates in *.
  rewrite rows_of_app, (rows_of_other a r Hne), app_nil_r. exact H.
Qed.

(** A further row of the agent is absorbed by [add_row]. *)
Lemma aggregates_add_row (v : Entry) (l : list ClaimRow.t) (r : ClaimRow.t) :
  aggregates (agent_id r) v l ->
  aggregates (agent_id r) (add_row r v) (l ++ [r]).
Proof.
  intros [Hf [Hb [[rx [Hrx Hex]] [rn [Hrn Hcn]]]]]. unfold aggregates.
  rewrite rows_of_app, rows_of_same. cbn [add_row e_files e_expiresAt e_createdAt].
  split; [now rewrite Hf, map_app|]. split; [|split].
  - intros r' Hr'. apply in_app_iff in Hr'. destruct Hr' as [Hr' | [Hr' | []]].
    + specialize (Hb r' Hr'). lia.
    + subst r'. lia.
  - destruct (Z.max_spec (e_expiresAt v) (expires_at r)) as [[_ Hm] | [_ Hm]];
      rewrite Hm.
    + exists r. split; [apply in_app_iff; right; now left | reflexivity].
    + exists rx. split; [apply in_app_iff; now left | assumption].
  - destruct (Z.min_spec (e_createdAt v) (created_at r)) as [[_ Hm] | [_ Hm]];
      rewrite Hm.
    + exists rn. split; [apply in_app_iff; now left | assumption].
    + exists r. split; [apply in_app_iff; right; now left | reflexivity].
Qed.

(** The first row of an agent: the fresh entry absorbs it. *)
Lemma aggregates_first_row (l : list ClaimRow.t) (r : ClaimRow.t) :
  rows_of (agent_id r) l = [] ->
  aggregates (agent_id r) (add_row r (new_entry r)) (l ++ [r]).
Proof.
  intros Hnil. unfold aggregates.
  rewrite rows_of_app, rows_of_same, Hnil.
  cbn [add_row new_entry e_files e_expiresAt e_createdAt app map].
  rewrite Z.max_id, Z.min_id. split; [reflexivity|]. split; [|split].
  - intros r' [Hr' | []]. subst r'. lia.
  - exists r. split; [now left | reflexivity].
  - exists r. split; [now left | reflexivity].
Qed.

Lemma NoDup_snoc {A : Type} (l : list A) (x : A) :
  NoDup l -> ~ In x l -> NoDup (l ++ [x]).
Proof.
  intros Hnd Hx. apply (Permutation_NoDup (l := x :: l)).
  - apply Permutation_cons_append.
  - now constructor.
Qed.

(** One iteration of the loop keeps the map grouped. *)
Lemma group_row_grouped (l : list ClaimRow.t) (m : ByAgent) (r : ClaimRow.t) :
  grouped l m -> grouped (l ++ [r]) (group_row m r).
Proof.
  intros [Hnd [Hkeys Hagg]]. unfold group_row.
  destruct (by_agent_get (agent_id r) m) as [v0|] eqn:Hget.
  - assert (Hin : In (agent_id r) (map fst m)).
    { destruct (in_dec string_dec (agent_id r) (map fst m)) as [H|H];
        [assumption|].
      apply by_agent_get_none in H. congruence. }
    split; [now rewrite by_agent_update_keys|]. split.
    + intros a. rewrite by_agent_update_keys, Hkeys. split.
      * intros [r' [Hr' Ha]]. exists r'. split; [apply in_app_iff; now left | assumption].
      * intros [r' [Hr' Ha]]. apply in_app_iff in Hr'.
        destruct Hr' as [Hr' | [Hr' | []]]; [now exists r'|].
        subst r'. subst a. now apply Hkeys.
    + intros a v Hv. apply (in_by_agent_update _ _ _ Hnd) in Hv.
      destruct Hv as [[Hne Hv] | [Ha [v1 [Hv1 Hv]]]].
      * apply aggregates_other; [congruence | now apply Hagg].
      * subst a v. apply aggregates_add_row. now apply Hagg.
  - apply by_agent_get_none in Hget.
    assert (Hnd1 : NoDup (map fst (m ++ [(agent_id r, new_entry r)]))).
    { rewrite map_app. simpl. now apply NoDup_snoc. }
    split; [now rewrite by_agent_update_keys|]. split.
    + intros a. rewrite by_agent_update_keys, map_app, in_app_iff, Hkeys.
      simpl. split.
      * intros [[r' [Hr' Ha]] | [Ha | []]].
        -- exists r'. split; [apply in_app_iff; now left | assumption].
        -- exists r. split; [apply in_app_iff; right; now left | assumption].
      * intros [r' [Hr' Ha]]. apply in_app_iff in Hr'.
        destruct Hr' as [Hr' | [Hr' | []]].
        -- left. now exists r'.
        -- right. left. now subst r'.
    + intros a v Hv. apply (in_by_agent_update _ _ _ Hnd1) in Hv.
      destruct Hv as [[Hne Hv] | [Ha [v1 [Hv1 Hv]]]].
      * apply in_app_iff in Hv. destruct Hv as [Hv | [Hv | []]].
        -- apply aggregates_other; [congruence | now apply Hagg].
        -- inversion Hv. congruence.
      * subst a v. apply in_app_iff in Hv1. destruct Hv1 as [Hv1 | [Hv1 | []]].
        -- exfalso. apply Hget. apply in_map_iff. now exists (agent_id r, v1).
        -- inversion Hv1; subst v1. apply aggregates_first_row.
           apply rows_of_nil_iff. intros Hex. apply Hget. now apply Hkeys.
Qed.

Lemma fold_group_row_grouped (l : list ClaimRow.t) :
  grouped l (fold_left group_row l []).
Proof.
  induction l as [|r l IH] using rev_ind.
  - split; [constructor|]. split.
    + intros a. split; [intros [] | intros [r [[] _]]].
    + intros a v [].
  - rewrite fold_left_app. simpl. now apply group_row_grouped.
Qed.

Lemma insert_desc_perm (r : ClaimRow.t) (l : list ClaimRow.t) :
  Permutation (insert_desc r l) (r :: l).
Proof.
  induction l as [|x l IH]; simpl; [reflexivity|].
  destruct (created_at x <=? created_at r); [reflexivity|].
  rewrite IH. apply perm_swap.
Qed.

Lemma order_by_created_at_desc_perm (l : list ClaimRow.t) :
  Permutation (order_by_created_at_desc l) l.
Proof.
  induction l as [|r l IH]; simpl; [reflexivity|].
  rewrite insert_desc_perm. now constructor.
Qed.

Lemma rows_of_perm (a : string) (l l' : list ClaimRow.t) :
  Permutation l l' -> Permutation (rows_of a l) (rows_of a l').
Proof.
  unfold rows_of. induction 1 as [|x l l' _ IH|x y l|l l' l'' _ IH1 _ IH2]; simpl.
  - constructor.
  - destruct (String.eqb (agent_id x) a); [now constructor | assumption].
  - destruct (String.eqb (agent_id x) a), (String.eqb (agent_id y) a);
      try reflexivity. apply perm_swap.
  - now transitivity (filter (fun r => String.eqb (agent_id r) a) l').
Qed.

(** C8.  After its sweep, [listActiveClaims] returns one claim per agent
    that has a row left in the claims table and none for any other
    agent; the files of an agent's claim are the paths of that agent's
    rows (each row once), its [expiresAt] is the greatest [expires_at]
    and its [createdAt] the least [created_at] among those rows. *)
Theorem listActiveClaims_aggregate (t : Z) (db : HallDb) :
  let out := fst (listActiveClaims t db) in
  let rows := claims (pruneExpiredClaims t db) in
  NoDup (map Claim.agentId out)
  /\ (forall a, In a (map Claim.agentId out) <->
                exists r, In r rows /\ agent_id r = a)
  /\ (forall c, In c out ->
        Permutation (Claim.files c)
          (map file_path (rows_of (Claim.agentId c) rows))
        /\ (forall r, In r (rows_of (Claim.agentId c) rows) ->
                      expires_at r <= Claim.expiresAt c
                      /\ Claim.createdAt c <= created_at r)
        /\ (exists r, In r (rows_of (Claim.agentId c) rows)
                      /\ expires_at r = Claim.expiresAt c)
        /\ (exists r, In r (rows_of (Claim.agentId c) rows)
                      /\ created_at r = Claim.createdAt c)).
Proof.
  intros out rows. subst out. unfold listActiveClaims. cbn [fst].
  fold rows.
  pose proof (order_by_created_at_desc_perm rows) as Hperm.
  destruct (fold_group_row_grouped (order_by_created_at_desc rows))
    as [Hnd [Hkeys Hagg]].
  set (m := fold_left group_row (order_by_created_at_desc rows) []) in *.
  assert (Hids : map Claim.agentId
                   (map (fun '(agentId, v) =>
                           Claim.mk agentId (e_files v) (e_expiresAt v)
                             (e_createdAt v)) m)
                 = map fst m).
  { rewrite map_map. apply map_ext. now intros [a v]. }
  rewrite Hids. split; [exact Hnd|]. split.
  - intros a. rewrite Hkeys. split; intros [r [Hr Ha]]; exists r; split;
      try assumption.
    + now apply (Permutation_in _ Hperm).
    + now apply (Permutation_in _ (Permutation_sym Hperm)).
  - intros c Hc. apply in_map_iff in Hc. destruct Hc as [[a v] [Hc Hin]].
    subst c. cbn [Claim.agentId Claim.files Claim.expiresAt Claim.createdAt].
    destruct (Hagg a v Hin) as [Hf [Hb [[rx [Hrx Hex]] [rn [Hrn Hcn]]]]].
    pose proof (rows_of_perm a _ _ Hperm) as Hp.
    split; [rewrite Hf; now apply Permutation_map|]. split; [|split].
    + intros r Hr. apply Hb.
      now apply (Permutation_in _ (Permutation_sym Hp)).
    + exists rx. split; [now apply (Permutation_in _ Hp) | assumption].
    + exists rn. split; [now apply (Permutation_in _ Hp) | assumption].
Qed.

Example listActiveClaims_two_agents :
  fst (listActiveClaims 1000 db_two_agents)
  = [Claim.mk "agentB" ["src/c.ts"; "src/b.ts"] 60300 200;
     Claim.mk "agentA" ["src/a.ts"] 5000 0].
Proof. reflexivity. Qed.

Lemma listActiveClaims_aggregate_witness :
  In (Claim.mk "agentB" ["src/c.ts"; "src/b.ts"] 60300 200)
    (fst (listActiveClaims 1000 db_two_agents))
  /\ Permutation ["src/c.ts"; "src/b.ts"]
       (map file_path
          (rows_of "agentB" (claims (pruneExpiredClaims 1000 db_two_agents))))
  /\ exists r,
       In r (rows_of "agentB" (claims (pruneExpiredClaims 1000 db_two_agents)))
       /\ expires_at r = 60300.
Proof.
  assert (Hin : In (Claim.mk "agentB" ["src/c.ts"; "src/b.ts"] 60300 200)
                  (fst (listActiveClaims 1000 db_two_agents)))
    by (left; reflexivity).
  split; [exact Hin|].
  destruct (proj2 (proj2 (listActiveClaims_aggregate 1000 db_two_agents))
              (Claim.mk "agentB" ["src/c.ts"; "src/b.ts"] 60300 200) Hin)
    as [Hfiles [_ [Hmax _]]].
  split; [exact Hfiles | exact Hmax].
Defined.

End Aggregation.

(** ** C9: the event ring *)

Section EventBuffer.

Lemma eventRing_broadcast_all (evts : list HallEvent) :
  forall s, eventRing (broadcast_all evts s)
            = fold_left (fun r e => EventRing.push e r) evts (eventRing s).
Proof.
  unfold broadcast_all.
  induction evts as [|e evts IH]; intros s; simpl; [reflexivity|].
  now rewrite IH.
Qed.

Lemma maxSize_fold_push (evts : list HallEvent) :
  forall r, EventRing.maxSize
              (fold_left (fun r e => EventRing.push e r) evts r)
            = EventRing.maxSize r.
Proof.
  induction evts as [|e evts IH]; intros r; simpl; [reflexivity|].
  now rewrite IH.
Qed.

Lemma tl_skipn {A : Type} (k : nat) (l : list A) :
  tl (skipn k l) = skipn (S k) l.
Proof.
  revert l. induction k as [|k IH]; intros [|x l]; simpl; try reflexivity.
  apply IH.
Qed.

(** The buffer after broadcasting [evts]: the last 500 of them, in the
    order of arrival. *)
Lemma api_events_last_500 (evts : list HallEvent) :
  api_events (broadcast_all evts initialServer)
  = skipn (List.length evts - 500) evts.
Proof.
  unfold api_events, EventRing.toArray.
  rewrite eventRing_broadcast_all. cbn [initialServer eventRing].
  induction evts as [|e evts IH] using rev_ind; [reflexivity|].
  rewrite fold_left_app. cbn [fold_left]. unfold EventRing.push at 1.
  rewrite maxSize_fold_push. cbn [EventRing.buffer EventRing.new EventRing.maxSize].
  rewrite IH, length_skipn, length_app. cbn [List.length].
  destruct (500 <=? Z.of_nat (List.length evts - (List.length evts - 500)))
    eqn:E.
  - apply Z.leb_le in E. unfold EventRing.shift. rewrite tl_skipn.
    rewrite skipn_app.
    replace (List.length evts + 1 - 500)%nat
      with (S (List.length evts - 500)) by lia.
    replace (S (List.length evts - 500) - List.length evts)%nat with 0%nat
      by lia.
    reflexivity.
  - apply Z.leb_gt in E.
    replace (List.length evts - 500)%nat with 0%nat by lia.
    replace (List.length evts + 1 - 500)%nat with 0%nat by lia.
    reflexivity.
Qed.

(** C9.  After any sequence of broadcasts from the start of the server,
    the buffer holds at most 500 events; [toArray] (served at
    [/api/events]) returns the buffered events in order of arrival,
    oldest first: they are the last 500 events broadcast; a further
    broadcast into a full buffer removes its first, oldest, event and
    nothing else, and appends the new one; into a buffer that is not
    full it only appends. *)
Theorem event_ring_bound_and_order (evts : list HallEvent) :
  let s := broadcast_all evts initialServer in
  (List.length (api_events s) <= 500)%nat
  /\ api_events s = skipn (List.length evts - 500) evts
  /\ (forall e, List.length (api_events s) = 500%nat ->
                api_events (broadcast e s) = tl (api_events s) ++ [e])
  /\ (forall e, (List.length (api_events s) < 500)%nat ->
                api_events (broadcast e s) = api_events s ++ [e]).
Proof.
  intros s. subst s.
  assert (Hlen : (List.length (api_events (broadcast_all evts initialServer))
                  <= 500)%nat).
  { rewrite api_events_last_500, length_skipn. lia. }
  assert (Hmax : EventRing.maxSize
                   (eventRing (broadcast_all evts initialServer)) = 500).
  { rewrite eventRing_broadcast_all. now rewrite maxSize_fold_push. }
  split; [exact Hlen|]. split; [apply api_events_last_500|].
  unfold api_events, EventRing.toArray in *. split.
  - intros e Hfull. cbn [broadcast eventRing]. unfold EventRing.push.
    rewrite Hmax, Hfull. reflexivity.
  - intros e Hroom. cbn [broadcast eventRing]. unfold EventRing.push.
    rewrite Hmax.
    replace (500 <=? Z.of_nat _) with false; [reflexivity|].
    symmetry. apply Z.leb_gt. lia.
Qed.

Lemma event_ring_bound_and_order_witness :
  List.length (api_events (broadcast_all (file_events 502) initialServer))
  = 500%nat
  /\ hd_error (api_events (broadcast_all (file_events 502) initialServer))
     = Some (file_changed "src/a.ts" 2)
  /\ api_events (broadcast (gate_result true "ok" 502)
                   (broadcast_all (file_events 502) initialServer))
     = tl (api_events (broadcast_all (file_events 502) initialServer))
       ++ [gate_result true "ok" 502].
Proof.
  assert (Hfull : List.length
                    (api_events (broadcast_all (file_events 502) initialServer))
                  = 500%nat) by (vm_compute; reflexivity).
  split; [exact Hfull|]. split; [vm_compute; reflexivity|].
  exact (proj1 (proj2 (proj2 (event_ring_bound_and_order (file_events 502))))
           (gate_result true "ok" 502) Hfull).
Defined.

End EventBuffer.

(** ** The scenarios of the test suite and of the specification *)

Section Scenarios.

Import HallState.

(** "detects conflicts when a different agent has an active claim" *)
Example test_detects_conflicts :
  let '(a, db1) := createClaim 0 0 0 "agentA" ["src/a.ts"] 900 emptyDb in
  let '(b, _) := createClaim 1 1 1 "agentB" ["src/a.ts"] 900 db1 in
  conflictsWith a = [] /\ conflictsWith b = ["agentA"].
Proof. split; reflexivity. Qed.

(** "allows same agent to extend claim" *)
Example test_same_agent_extends :
  let '(_, db1) := createClaim 0 0 0 "agentA" ["src/a.ts"] 900 emptyDb in
  let '(b, db2) := createClaim 1 1 1 "agentA" ["src/a.ts"] 900 db1 in
  conflictsWith b = []
  /\ claims db2 = [ClaimRow.mk "agentA" "src/a.ts" 900001 1].
Proof. split; reflexivity. Qed.

(** "releases claims" *)
Example test_releases_claims :
  let '(_, db1) :=
    createClaim 0 0 0 "agentA" ["src/a.ts"; "src/b.ts"] 900 emptyDb in
  let '(released, db2) := releaseClaims "agentA" (Some ["src/a.ts"]) db1 in
  let '(b, db3) := createClaim 1 1 1 "agentB" ["src/a.ts"] 900 db2 in
  let '(c, _) := createClaim 2 2 2 "agentB" ["src/b.ts"] 900 db3 in
  released = 1 /\ conflictsWith b = [] /\ conflictsWith c = ["agentA"].
Proof. vm_compute. repeat split. Qed.

(** "releases all claims for agent" *)
Example test_releases_all_claims :
  let '(_, db1) :=
    createClaim 0 0 0 "agentA" ["src/a.ts"; "src/b.ts"] 900 emptyDb in
  let '(released, db2) := releaseClaims "agentA" None db1 in
  released = 2 /\ fst (listActiveClaims 1 db2) = [].
Proof. split; reflexivity. Qed.

(** "handles empty files array gracefully" *)
Example test_empty_files :
  createClaim 0 0 0 "agentA" [] 900 emptyDb
  = (mkCreateClaimResult (Claim.mk "agentA" [] 900000 0) [], emptyDb).
Proof. reflexivity. Qed.

(** A lease with [expiresAt <= now] does not block another agent. *)
Example lazy_expiry_does_not_block :
  conflictsWith (fst (createClaim 5000 5000 5000 "agentB" ["src/a.ts"] 900 db_A))
  = []
  /\ fst (listActiveClaims 5000 db_A) = [].
Proof. split; reflexivity. Qed.

(** agentB with an intent, against the live lease of agentA. *)
Example hall_claim_conflict_result :
  fst (Mcp.hall_claim 100 100 100 claim_args_B db_intent_B)
  = Mcp.mkToolResult
      (Mcp.ClaimConflict (Claim.mk "agentB" ["src/a.ts"] 900100 100)
         ["agentA"] "Files already claimed by: agentA")
      None.
Proof. reflexivity. Qed.

(** "release("A") called with zero prior evidence and one active lease:
    rejected; lease remains held" *)
Example release_rejected_lease_held :
  Mcp.hall_claim_release 100 release_args_A db_A
  = (Mcp.mkToolResult
       (Mcp.RejectedNoEvidence
          "You must attach evidence (hall_evidence_attach) proving your work before releasing claims. No receipts = no release."
          ["src/a.ts"])
       (Some true),
     db_A).
Proof. reflexivity. Qed.

End Scenarios.

(** * Further properties of the code *)

(** ** The lease table *)

Section LeaseTableMore.

Import HallState.

Lemma filter_filter_implied {A : Type} (P Q : A -> bool) (l : list A) :
  (forall x, P x = true -> Q x = true) ->
  filter P (filter Q l) = filter P l.
Proof.
intros H. induction l as [|x l IH]; simpl; [reflexivity|].
destruct (Q x) eqn:EQ; simpl.
- destruct (P x); now rewrite IH.
- destruct (P x) eqn:EP; [|exact IH].
  rewrite (H x EP) in EQ. discriminate.
Qed.

Lemma length_filter_split {A : Type} (P : A -> bool) (l : list A) :
  List.length l
  = (List.length (filter P l) + List.length (filter (fun x => negb (P x)) l))%nat.
Proof.
induction l as [|x l IH]; simpl; [reflexivity|].
destruct (P x); simpl; lia.
Qed.

Lemma released_by_iff (a : string) (files : option (list string))
  (r : ClaimRow.t) :
  released_by a files r = true <->
  agent_id r = a
  /\ (files = None \/ files = Some [] \/
      exists fs, files = Some fs /\ In (file_path r) fs).
Proof.
unfold released_by. destruct files as [[|f fs]|].
- rewrite String.eqb_eq. split; [intros H; split; auto | now intros [H _]].
- rewrite andb_true_iff, String.eqb_eq, path_in_iff. split.
  + intros [Ha Hp]. split; [assumption|]. right. right. now exists (f :: fs).
  + intros [Ha [H | [H | [fs' [H Hp]]]]]; try discriminate.
    inversion H; subst. now split.
- rewrite String.eqb_eq. split; [intros H; split; auto | now intros [H _]].
Qed.

(** X1.  [releaseClaims] returns the number of rows it deleted: the rows
    before are the rows after plus the count returned.  The rows it deletes
    are those of the caller, all of them when [files] is omitted or the
    empty array, else those on the listed paths; every other row stays as
    it is, and releasing a path that is not held deletes nothing. *)
Theorem releaseClaims_accounting
  (a : string) (files : option (list string)) (db : HallDb) :
  let '(released, db') := releaseClaims a files db in
  Z.of_nat (List.length (claims db))
  = released + Z.of_nat (List.length (claims db'))
  /\ 0 <= released
  /\ (forall r, In r (claims db') <->
                In r (claims db)
                /\ ~ (agent_id r = a
                      /\ (files = None \/ files = Some [] \/
                          exists fs, files = Some fs /\ In (file_path r) fs)))
  /\ tasks db' = tasks db /\ intents db' = intents db
  /\ evidence db' = evidence db.
Proof.
unfold releaseClaims. cbn [claims with_claims tasks intents evidence].
split; [|split; [lia|split; [|repeat split]]].
- rewrite (length_filter_split (released_by a files) (claims db)). lia.
- intros r. rewrite filter_In, negb_true_iff, <- released_by_iff.
  split; intros [H1 H2]; (split; [assumption|]).
  + now rewrite H2.
  + now apply not_true_is_false.
Qed.

(** X2.  Releasing is idempotent: a second identical [releaseClaims]
    deletes nothing, returns 0 and leaves the database as the first call
    left it. *)
Theorem releaseClaims_twice
  (a : string) (files : option (list string)) (db : HallDb) :
  releaseClaims a files (snd (releaseClaims a files db))
  = (0, snd (releaseClaims a files db)).
Proof.
unfold releaseClaims. cbn [snd claims with_claims tasks intents evidence].
set (cs1 := filter (fun r => negb (released_by a files r)) (claims db)).
assert (Hkept : forall r, In r cs1 -> released_by a files r = false).
{ intros r Hr. apply filter_In in Hr. destruct Hr as [_ Hr].
  now apply negb_true_iff in Hr. }
rewrite (filter_none _ _ Hkept).
rewrite (filter_all (fun r => negb (released_by a files r)) cs1).
- reflexivity.
- intros r Hr. now rewrite (Hkept r Hr).
Qed.

(** The transaction of [createClaim], on the rows. *)
Lemma tx_other_keys (a : string) (e c : Z) (files : list string) :
  forall (cs : list ClaimRow.t) (a' p' : string),
    ~ (a' = a /\ In p' files) ->
    filter (same_key a' p')
      (fold_left (fun acc p => insert_or_replace a p e c acc) files cs)
    = filter (same_key a' p') cs.
Proof.
induction files as [|f files IH]; intros cs a' p' Hk; simpl; [reflexivity|].
rewrite IH by (intros [Ha Hp]; apply Hk; split; [assumption | now right]).
unfold insert_or_replace. rewrite filter_app. simpl.
assert (Hnew : same_key a' p' (ClaimRow.mk a f e c) = false).
{ unfold same_key. simpl. apply andb_false_iff.
  destruct (string_dec a a') as [Ha|Ha]; [|left; now apply String.eqb_neq].
  right. apply String.eqb_neq. intros Hp. apply Hk. subst. split; [reflexivity | now left]. }
rewrite Hnew, app_nil_r. apply filter_filter_implied.
intros r Hr. apply negb_true_iff. unfold same_key in *.
apply andb_true_iff in Hr. destruct Hr as [Hra Hrp].
apply String.eqb_eq in Hra, Hrp. rewrite Hra, Hrp.
unfold same_key in Hnew. simpl in Hnew.
rewrite String.eqb_sym, (String.eqb_sym p' f). exact Hnew.
Qed.

Lemma tx_requested_key (a : string) (e c : Z) (files : list string) :
  forall (cs : list ClaimRow.t) (p : string),
    In p files ->
    filter (same_key a p)
      (fold_left (fun acc q => insert_or_replace a q e c acc) files cs)
    = [ClaimRow.mk a p e c].
Proof.
induction files as [|f files IH]; intros cs p Hp; simpl; [contradiction|].
destruct (in_dec string_dec p files) as [Hin|Hnin]; [now apply IH|].
destruct Hp as [Hp|Hp]; [subst f | contradiction].
rewrite tx_other_keys by (intros [_ H]; contradiction).
apply filter_key_insert_or_replace.
Qed.

(** X3.  A grant is complete: when [createClaim] reports no conflict, the
    table afterwards has, for every requested path, exactly one row of the
    caller, created at the reading [tc] and expiring at
    [tc + max(5, ttl) * 1000]; for every other key the rows are those of
    the swept table, untouched. *)
Theorem createClaim_grants_every_path
  (tp tc tf : Z) (a : string) (files : list string) (ttl : Z) (db : HallDb) :
  conflictsWith (fst (createClaim tp tc tf a files ttl db)) = [] ->
  (forall p, In p files ->
     filter (same_key a p) (claims (snd (createClaim tp tc tf a files ttl db)))
     = [ClaimRow.mk a p (tc + Z.max 5 ttl * 1000) tc])
  /\ (forall a' p', ~ (a' = a /\ In p' files) ->
        filter (same_key a' p')
          (claims (snd (createClaim tp tc tf a files ttl db)))
        = filter (same_key a' p') (claims (pruneExpiredClaims tp db))).
Proof.
unfold createClaim.
destruct (0 <? Z.of_nat (List.length
                           (findConflicts tf a files (pruneExpiredClaims tp db))))
  eqn:E; cbn [fst snd conflictsWith].
- intros Hnil. rewrite Hnil in E. discriminate.
- intros _. cbn [claims with_claims]. split.
  + intros p Hp. now apply tx_requested_key.
  + intros a' p' Hk. now apply tx_other_keys.
Qed.

Lemma createClaim_grants_every_path_witness :
  conflictsWith
    (fst (createClaim 6000 6000 6000 "agentB" ["src/a.ts"; "src/b.ts"] 60 db_A))
  = []
  /\ filter (same_key "agentB" "src/b.ts")
       (claims (snd (createClaim 6000 6000 6000 "agentB"
                       ["src/a.ts"; "src/b.ts"] 60 db_A)))
     = [ClaimRow.mk "agentB" "src/b.ts" 66000 6000].
Proof.
split; [reflexivity|].
apply (proj1 (createClaim_grants_every_path 6000 6000 6000 "agentB"
                ["src/a.ts"; "src/b.ts"] 60 db_A eq_refl)).
right. now left.
Defined.

(** X4.  What blocks a claim: with a clock that does not run backwards
    between the sweep and the conflict query, [createClaim] reports no
    conflict exactly when no other agent holds a lease on a requested path
    that is live at the reading of the conflict query.  Rows of the caller
    and rows that have expired by then, swept or not, never block. *)
Theorem createClaim_conflict_free_iff
  (tp tc tf : Z) (a : string) (files : list string) (ttl : Z) (db : HallDb) :
  tp <= tf ->
  (conflictsWith (fst (createClaim tp tc tf a files ttl db)) = [] <->
   forall b p, b <> a -> In p files -> holds_live tf b p db = false).
Proof.
intros Hle.
assert (Hcw : conflictsWith (fst (createClaim tp tc tf a files ttl db))
              = findConflicts tf a files (pruneExpiredClaims tp db)).
{ unfold createClaim.
  destruct (0 <? Z.of_nat (List.length
                             (findConflicts tf a files (pruneExpiredClaims tp db))))
    eqn:E; cbn [fst conflictsWith]; [reflexivity|].
  symmetry. now apply length_pos_false. }
rewrite Hcw. split.
- intros Hnil b p Hb Hp. apply not_true_is_false. intros Hl.
  assert (Hin : In b (findConflicts tf a files (pruneExpiredClaims tp db))).
  { apply in_findConflicts_after_sweep; [assumption|].
    split; [assumption|]. now exists p. }
  rewrite Hnil in Hin. contradiction.
- intros Hnone.
  destruct (findConflicts tf a files (pruneExpiredClaims tp db)) as [|b l] eqn:E;
    [reflexivity|]. exfalso.
  assert (Hin : In b (findConflicts tf a files (pruneExpiredClaims tp db)))
    by (rewrite E; now left).
  apply in_findConflicts_after_sweep in Hin; [|assumption].
  destruct Hin as [Hb [p [Hp Hl]]]. rewrite (Hnone b p Hb Hp) in Hl. discriminate.
Qed.

Lemma createClaim_conflict_free_iff_witness :
  5000 <= 5000
  /\ conflictsWith
       (fst (createClaim 5000 5000 5000 "agentB" ["src/a.ts"] 900 db_A)) = []
  /\ holds_live 5000 "agentA" "src/a.ts" db_A = false.
Proof.
split; [lia|]. split; [reflexivity|].
apply (proj1 (createClaim_conflict_free_iff 5000 5000 5000 "agentB"
                ["src/a.ts"] 900 db_A (Z.le_refl 5000)) eq_refl).
- discriminate.
- now left.
Defined.

End LeaseTableMore.

(** ** Invariants of the lease table along a run *)

Section LeaseInvariants.

Import HallState.

Lemma NoDup_map_filter {A B : Type} (f : A -> B) (P : A -> bool) (l : list A) :
  NoDup (map f l) -> NoDup (map f (filter P l)).
Proof.
induction l as [|x l IH]; simpl; intros H; [constructor|].
inversion H as [|? ? Hx Hl]; subst. destruct (P x); simpl.
- constructor; [|now apply IH].
  intros Hin. apply Hx. apply in_map_iff in Hin.
  destruct Hin as [y [Hy Hin]]. apply filter_In in Hin.
  apply in_map_iff. exists y. tauto.
- now apply IH.
Qed.

Lemma NoDup_keys_insert_or_replace (a p : string) (e c : Z)
  (cs : list ClaimRow.t) :
  NoDup (map row_key cs) ->
  NoDup (map row_key (insert_or_replace a p e c cs)).
Proof.
intros H. unfold insert_or_replace. rewrite map_app. simpl.
apply NoDup_snoc; [now apply NoDup_map_filter|].
intros Hin. apply in_map_iff in Hin. destruct Hin as [r [Hk Hr]].
apply filter_In in Hr. destruct Hr as [_ Hr]. apply negb_true_iff in Hr.
unfold row_key in Hk. simpl in Hk. inversion Hk as [[Ha Hp]].
unfold same_key in Hr. now rewrite Ha, Hp, !String.eqb_refl in Hr.
Qed.

Lemma NoDup_keys_tx (a : string) (e c : Z) (files : list string) :
  forall cs, NoDup (map row_key cs) ->
    NoDup (map row_key
             (fold_left (fun acc p => insert_or_replace a p e c acc) files cs)).
Proof.
induction files as [|f files IH]; intros cs H; simpl; [assumption|].
apply IH. now apply NoDup_keys_insert_or_replace.
Qed.

(** A property of the claims table that deleting rows keeps and that
    [INSERT OR REPLACE] of a lease of five seconds or more keeps is kept by
    every call, hence holds in every reachable database. *)
Lemma run_keeps (P : list ClaimRow.t -> Prop) :
  (forall f cs, P cs -> P (filter f cs)) ->
  (forall a p e c cs, c + 5000 <= e -> P cs -> P (insert_or_replace a p e c cs)) ->
  forall c db, P (claims db) -> P (claims (run c db)).
Proof.
intros Hfilter Hinsert c db H.
destruct c as [id t1 title d | id t1 input | id t1 input
              | tp tc tf a files ttl | t1 | a files | tp tn].
- now rewrite claims_createTask.
- now rewrite claims_postIntent.
- now rewrite claims_attachEvidence.
- simpl run. unfold createClaim.
  destruct (0 <? Z.of_nat (List.length _)); cbn [snd claims with_claims
    pruneExpiredClaims]; [now apply Hfilter|].
  assert (H1 : P (delete_expired tp (claims db))) by now apply Hfilter.
  revert H1. generalize (delete_expired tp (claims db)).
  induction files as [|f files IH]; intros cs Hcs; simpl; [assumption|].
  apply IH. apply Hinsert; [lia | assumption].
- simpl. now apply Hfilter.
- simpl. now apply Hfilter.
- simpl. now apply Hfilter.
Qed.

Lemma reachable_keeps (P : list ClaimRow.t -> Prop) :
  P [] ->
  (forall f cs, P cs -> P (filter f cs)) ->
  (forall a p e c cs, c + 5000 <= e -> P cs -> P (insert_or_replace a p e c cs)) ->
  forall t db, reachable t db -> P (claims db).
Proof.
intros Hnil Hfilter Hinsert t db H.
induction H as [t0 | t db c _ IH _]; [exact Hnil|].
now apply run_keeps.
Qed.

(** X5.  The primary key holds along every run: a reachable claims table
    has at most one row per pair of agent and path. *)
Theorem reachable_primary_key (t : Z) (db : HallDb) :
  reachable t db -> NoDup (map row_key (claims db)).
Proof.
apply (reachable_keeps (fun cs => NoDup (map row_key cs))).
- constructor.
- intros f cs. apply NoDup_map_filter.
- intros a p e c cs _. apply NoDup_keys_insert_or_replace.
Qed.

Lemma reachable_primary_key_witness :
  reachable 5000 db_tick
  /\ NoDup [("agentA", "src/a.ts"); ("agentB", "src/a.ts")].
Proof.
split; [exact reachable_db_tick|].
exact (reachable_primary_key 5000 db_tick reachable_db_tick).
Defined.

(** X6.  No lease is shorter than five seconds: in a reachable database
    every row expires 5000 ms or more after its creation time, whatever
    [ttlSeconds] the callers passed. *)
Theorem reachable_lease_at_least_5s (t : Z) (db : HallDb) (r : ClaimRow.t) :
  reachable t db -> In r (claims db) -> created_at r + 5000 <= expires_at r.
Proof.
intros Hreach. revert r.
apply (reachable_keeps
         (fun cs => forall r, In r cs -> created_at r + 5000 <= expires_at r))
  with (t := t) (db := db); [| | |assumption].
- intros r [].
- intros f cs H r Hr. apply filter_In in Hr. now apply H.
- intros a p e c cs Hle H r Hr. apply in_insert_or_replace in Hr.
  destruct Hr as [[Hr _] | Hr]; [now apply H | subst r; simpl; lia].
Qed.

Lemma reachable_lease_at_least_5s_witness :
  reachable 0 (run (CallCreateClaim 0 0 0 "agentA" ["src/a.ts"] (-30)) emptyDb)
  /\ 0 + 5000 <= 5000.
Proof.
assert (Hr : reachable 0
               (run (CallCreateClaim 0 0 0 "agentA" ["src/a.ts"] (-30)) emptyDb)).
{ refine (reachable_step 0 emptyDb (CallCreateClaim 0 0 0 "agentA" ["src/a.ts"] (-30))
            (reachable_init 0) _).
  simpl. repeat split; lia. }
split; [exact Hr|].
apply (reachable_lease_at_least_5s 0 _
         (ClaimRow.mk "agentA" "src/a.ts" 5000 0) Hr).
now left.
Defined.



(** X8.  Sweeps compose: a sweep at [t1] followed by a sweep at [t2]
    leaves what one sweep at the later of the two leaves. *)
Theorem pruneExpiredClaims_twice (t1 t2 : Z) (db : HallDb) :
  pruneExpiredClaims t2 (pruneExpiredClaims t1 db)
  = pruneExpiredClaims (Z.max t1 t2) db.
Proof.
unfold pruneExpiredClaims, with_claims. cbn [tasks intents claims evidence].
f_equal. unfold delete_expired.
induction (claims db) as [|r cs IH]; simpl; [reflexivity|].
destruct (expires_at r <=? t1) eqn:E1; simpl.
- replace (expires_at r <=? Z.max t1 t2) with true; [exact IH|].
  symmetry. apply Z.leb_le. apply Z.leb_le in E1. lia.
- destruct (expires_at r <=? t2) eqn:E2; simpl.
  + replace (expires_at r <=? Z.max t1 t2) with true; [exact IH|].
    symmetry. apply Z.leb_le. apply Z.leb_le in E2. lia.
  + replace (expires_at r <=? Z.max t1 t2) with false; [simpl; now rewrite IH|].
    symmetry. apply Z.leb_gt. apply Z.leb_gt in E1, E2. lia.
Qed.

Lemma in_order_by_created_at_desc (l : list ClaimRow.t) (r : ClaimRow.t) :
  In r (order_by_created_at_desc l) <-> In r l.
Proof.
pose proof (order_by_created_at_desc_perm l) as H. split.
- apply (Permutation_in _ H).
- apply (Permutation_in _ (Permutation_sym H)).
Qed.

(** The entry of an agent, given the map is grouped. *)
Lemma grouped_entry_files (rows : list ClaimRow.t) (m : ByAgent)
  (a : string) (v : Entry) (p : string) :
  grouped rows m -> In (a, v) m ->
  (In p (e_files v) <-> exists r, In r rows /\ agent_id r = a /\ file_path r = p).
Proof.
intros [_ [_ Hagg]] Hin. destruct (Hagg a v Hin) as [Hf _]. rewrite Hf.
rewrite in_map_iff. split.
- intros [r [Hp Hr]]. apply in_rows_of in Hr. exists r. tauto.
- intros [r [Hr [Ha Hp]]]. exists r. split; [assumption|].
  apply in_rows_of. tauto.
Qed.

(** What [listActiveClaims] lists, against the rows that are live. *)
Lemma listed_iff_live (t : Z) (db : HallDb) :
  (forall a p,
      (exists c, In c (fst (listActiveClaims t db))
                 /\ Claim.agentId c = a /\ In p (Claim.files c))
      <-> holds_live t a p db = true)
  /\ (forall c, In c (fst (listActiveClaims t db)) ->
                Claim.files c <> [] /\ t < Claim.expiresAt c).
Proof.
unfold listActiveClaims. cbn [fst].
set (rows := claims (pruneExpiredClaims t db)).
pose proof (fold_group_row_grouped (order_by_created_at_desc rows)) as Hg.
set (m := fold_left group_row (order_by_created_at_desc rows) []) in *.
assert (Hrows : forall a p,
           (exists r, In r (order_by_created_at_desc rows)
                      /\ agent_id r = a /\ file_path r = p)
           <-> holds_live t a p db = true).
{ intros a p. rewrite holds_live_iff. subst rows. simpl.
  split; intros [r [Hr [Ha Hp]]]; exists r.
  - apply in_order_by_created_at_desc, in_delete_expired in Hr. tauto.
  - split; [|tauto]. apply in_order_by_created_at_desc, in_delete_expired. tauto. }
split.
- intros a p. rewrite <- Hrows. split.
  + intros [c [Hc [Ha Hp]]]. apply in_map_iff in Hc.
    destruct Hc as [[a' v] [Hc Hin]]. subst c. simpl in Ha, Hp. subst a'.
    now apply (grouped_entry_files _ m a v p Hg Hin).
  + intros [r [Hr [Ha Hp]]].
    destruct Hg as [Hnd [Hkeys Hagg]].
    assert (Hk : In a (map fst m)) by (apply Hkeys; now exists r).
    apply in_map_iff in Hk. destruct Hk as [[a' v] [Hfst Hin]].
    simpl in Hfst. subst a'.
    exists (Claim.mk a (e_files v) (e_expiresAt v) (e_createdAt v)).
    split; [apply in_map_iff; now exists (a, v)|]. split; [reflexivity|].
    simpl. apply (grouped_entry_files _ m a v p (conj Hnd (conj Hkeys Hagg)) Hin).
    now exists r.
- intros c Hc. apply in_map_iff in Hc. destruct Hc as [[a v] [Hc Hin]].
  subst c. simpl. destruct Hg as [_ [_ Hagg]].
  destruct (Hagg a v Hin) as [Hf [_ [[rx [Hrx Hex]] _]]]. split.
  + rewrite Hf. intros Hnil. apply in_rows_of in Hrx. destruct Hrx as [Hrx Ha].
    assert (Hin' : In (file_path rx)
                     (map file_path (rows_of a (order_by_created_at_desc rows)))).
    { apply in_map. apply in_rows_of. now split. }
    rewrite Hnil in Hin'. contradiction.
  + rewrite <- Hex. apply in_rows_of in Hrx. destruct Hrx as [Hrx _].
    apply (proj1 (in_order_by_created_at_desc _ _)) in Hrx.
    subst rows. simpl in Hrx. now apply in_delete_expired in Hrx.
Qed.

(** X9.  [listActiveClaims] shows the live leases and nothing else: agent
    [a] is listed with path [p] exactly when [a] has a row on [p] that is
    live at the reading of the call; every claim listed has at least one
    file and an [expiresAt] after that reading. *)
Theorem listActiveClaims_lists_live_leases (t : Z) (db : HallDb) :
  (forall a p,
      (exists c, In c (fst (listActiveClaims t db))
                 /\ Claim.agentId c = a /\ In p (Claim.files c))
      <-> holds_live t a p db = true)
  /\ (forall c, In c (fst (listActiveClaims t db)) ->
                Claim.files c <> [] /\ t < Claim.expiresAt c).
Proof. exact (listed_iff_live t db). Qed.

Lemma entries_files_update (a : string) (r : ClaimRow.t) (m : ByAgent) :
  In a (map fst m) ->
  fold_right (fun kv n => Z.of_nat (List.length (e_files (snd kv))) + n) 0
    (by_agent_update a (add_row r) m)
  = fold_right (fun kv n => Z.of_nat (List.length (e_files (snd kv))) + n) 0 m
    + 1.
Proof.
induction m as [|[k v] m IH]; simpl; intros Hin; [contradiction|].
destruct (String.eqb k a) eqn:E; simpl.
- rewrite length_app. simpl. lia.
- apply String.eqb_neq in E. destruct Hin as [Hk | Hin]; [contradiction|].
  rewrite (IH Hin). lia.
Qed.

Lemma entries_files_group_row (m : ByAgent) (r : ClaimRow.t) :
  fold_right (fun kv n => Z.of_nat (List.length (e_files (snd kv))) + n) 0
    (group_row m r)
  = fold_right (fun kv n => Z.of_nat (List.length (e_files (snd kv))) + n) 0 m
    + 1.
Proof.
unfold group_row. destruct (by_agent_get (agent_id r) m) as [v|] eqn:E.
- apply entries_files_update.
  destruct (in_dec string_dec (agent_id r) (map fst m)) as [H|H]; [assumption|].
  apply by_agent_get_none in H. congruence.
- rewrite entries_files_update.
  + rewrite fold_right_app. simpl.
    generalize (agent_id r, new_entry r). intros _.
    induction m as [|kv m IH]; simpl; [reflexivity|].
    assert (Hm : by_agent_get (agent_id r) m = None).
    { destruct kv as [k v]. simpl in E.
      destruct (String.eqb k (agent_id r)); [discriminate | assumption]. }
    specialize (IH Hm). lia.
  + rewrite map_app, in_app_iff. right. now left.
Qed.

(** X10.  [status] and [listActiveClaims] agree: at one reading of the
    clock, the [claims] count of [status] is the number of files over all
    the claims [listActiveClaims] returns. *)
Theorem status_claims_is_total_files (t tn : Z) (db : HallDb) :
  st_claims (fst (status t tn db))
  = total_files (fst (listActiveClaims t db)).
Proof.
unfold status, listActiveClaims, total_files. cbn [fst st_claims].
set (rows := claims (pruneExpiredClaims t db)).
rewrite <- (Permutation_length (order_by_created_at_desc_perm rows)).
assert (Hsum : forall m : ByAgent,
           fold_right (fun c n => Z.of_nat (List.length (Claim.files c)) + n) 0
             (map (fun '(agentId, v) =>
                     Claim.mk agentId (e_files v) (e_expiresAt v) (e_createdAt v))
                m)
           = fold_right
               (fun kv n => Z.of_nat (List.length (e_files (snd kv))) + n) 0 m).
{ induction m as [|[k v] m IH]; simpl; [reflexivity | now rewrite IH]. }
rewrite Hsum.
induction (order_by_created_at_desc rows) as [|r l IH] using rev_ind;
  [reflexivity|].
rewrite fold_left_app. simpl fold_left.
rewrite entries_files_group_row, <- IH, length_app. simpl. lia.
Qed.

End LeaseInvariants.

(** ** The entity store *)

Section EntityStore.

Import HallState.

Lemma getTask_none_iff (id : string) (db : HallDb) :
  getTask id db = None <-> ~ In id (map TaskRow.id (tasks db)).
Proof.
unfold getTask. induction (tasks db) as [|r l IH]; simpl.
- split; [intros _ [] | reflexivity].
- destruct (String.eqb (TaskRow.id r) id) eqn:E.
  + apply String.eqb_eq in E. split; [discriminate|].
    intros H. exfalso. apply H. now left.
  + apply String.eqb_neq in E. rewrite IH. split.
    * intros H [Hid | Hin]; [contradiction | now apply H].
    * intros H Hin. apply H. now right.
Qed.

Lemma existsb_id_false {A : Type} (ident : A -> string) (id : string)
  (l : list A) :
  existsb (fun r => String.eqb (ident r) id) l = false
  <-> ~ In id (map ident l).
Proof.
induction l as [|r l IH]; simpl.
- split; [intros _ [] | reflexivity].
- rewrite orb_false_iff, IH, String.eqb_neq. tauto.
Qed.

Lemma find_app_fresh {A : Type} (f : A -> bool) (l : list A) (x : A) :
  find f (l ++ [x])
  = match find f l with
    | Some y => Some y
    | None => if f x then Some x else None
    end.
Proof.
induction l as [|y l IH]; simpl; [reflexivity|].
destruct (f y); [reflexivity | exact IH].
Qed.

(** X11.  Tasks can be read back: when [createTask] succeeds, [getTask] of
    the new id returns the task just created, with the title, description
    and time given, and [getTask] of any other id returns what it returned
    before.  [createTask] succeeds exactly when the id is not yet in use. *)
Theorem createTask_getTask_round_trip
  (id : string) (t : Z) (title : string) (description : option string)
  (db : HallDb) :
  (getTask id db = None ->
   exists db',
     createTask id t title description db
     = Ok (Task.mk id title description t, db')
     /\ getTask id db' = Some (Task.mk id title description t)
     /\ (forall id', id' <> id -> getTask id' db' = getTask id' db))
  /\ (getTask id db <> None ->
      createTask id t title description db = Err constraint_failed).
Proof.
split.
- intros Hnone. pose proof Hnone as Hfresh.
  apply getTask_none_iff, existsb_id_false in Hfresh.
  unfold createTask. rewrite Hfresh. eexists. split; [reflexivity|].
  unfold getTask in *. cbn [tasks with_tasks]. split.
  + rewrite find_app_fresh.
    destruct (find (fun r => String.eqb (TaskRow.id r) id) (tasks db));
      [discriminate|].
    simpl. now rewrite String.eqb_refl.
  + intros id' Hne. rewrite find_app_fresh.
    destruct (find (fun r => String.eqb (TaskRow.id r) id') (tasks db));
      [reflexivity|].
    simpl. apply not_eq_sym, String.eqb_neq in Hne. now rewrite Hne.
- intros Hsome. unfold createTask.
  destruct (existsb _ (tasks db)) eqn:E; [reflexivity|].
  apply existsb_id_false, getTask_none_iff in E. contradiction.
Qed.

Lemma createTask_getTask_round_trip_witness :
  getTask "task00000001" emptyDb = None
  /\ exists db',
       createTask "task00000001" 10 "Fix the build" None emptyDb
       = Ok (Task.mk "task00000001" "Fix the build" None 10, db')
       /\ getTask "task00000001" db'
          = Some (Task.mk "task00000001" "Fix the build" None 10).
Proof.
split; [reflexivity|].
destruct (proj1 (createTask_getTask_round_trip "task00000001" 10
                   "Fix the build" None emptyDb) eq_refl)
  as [db' [Hc [Hg _]]].
exists db'. split; assumption.
Defined.

(** One call only appends to the three entity tables. *)
Lemma run_extends (c : Call) (db : HallDb) :
  extends (tasks db) (tasks (run c db))
  /\ extends (intents db) (intents (run c db))
  /\ extends (evidence db) (evidence (run c db)).
Proof.
assert (Hrefl : forall (A : Type) (l : list A), extends l l)
  by (intros A l; exists []; now rewrite app_nil_r).
destruct c as [id t1 title d | id t1 input | id t1 input
              | tp tc tf a files ttl | t1 | a files | tp tn]; simpl.
- unfold createTask. destruct (existsb _ (tasks db)); simpl; auto.
  split; [now eexists | auto].
- unfold postIntent. destruct (getTask _ db); auto.
  destruct (existsb _ (intents db)); simpl; auto.
  split; [auto | split; [now eexists | auto]].
- unfold attachEvidence. destruct (getTask _ db); auto.
  destruct (existsb _ (evidence db)); simpl; auto.
  split; [auto | split; [auto | now eexists]].
- unfold createClaim. destruct (0 <? Z.of_nat (List.length _)); simpl; auto.
- auto.
- auto.
- auto.
Qed.

(** X12.  The entity tables are append-only: after any sequence of calls
    the tasks, intents and evidence tables are the tables before with rows
    appended; no call edits or deletes a row of them. *)
Theorem entity_tables_append_only (cs : list Call) (db : HallDb) :
  extends (tasks db) (tasks (run_all cs db))
  /\ extends (intents db) (intents (run_all cs db))
  /\ extends (evidence db) (evidence (run_all cs db)).
Proof.
unfold run_all. revert db. induction cs as [|c cs IH]; intros db; simpl.
- repeat split; exists []; now rewrite app_nil_r.
- destruct (IH (run c db)) as [[t2 Ht2] [[i2 Hi2] [e2 He2]]].
  destruct (run_extends c db) as [[t1 Ht1] [[i1 Hi1] [e1 He1]]].
  repeat split.
  + exists (t1 ++ t2). now rewrite Ht2, Ht1, app_assoc.
  + exists (i1 ++ i2). now rewrite Hi2, Hi1, app_assoc.
  + exists (e1 ++ e2). now rewrite He2, He1, app_assoc.
Qed.

(** X13.  Identifiers and references stay sound along every run: in a
    reachable database task ids, intent ids and evidence ids are each
    unique, and every intent and every evidence row refers to a task that
    exists. *)
Theorem reachable_entity_integrity (t : Z) (db : HallDb) :
  reachable t db ->
  NoDup (map TaskRow.id (tasks db))
  /\ NoDup (map IntentRow.id (intents db))
  /\ NoDup (map EvidenceRow.id (evidence db))
  /\ (forall r, In r (intents db) -> getTask (IntentRow.task_id r) db <> None)
  /\ (forall r, In r (evidence db) ->
                getTask (EvidenceRow.task_id r) db <> None).
Proof.
induction 1 as [t0 | t db c Hreach IH Hmono].
- repeat split; try constructor; intros r [].
- destruct IH as [Ht [Hi [He [Hri Hre]]]].
  destruct c as [id t1 title d | id t1 input | id t1 input
                | tp tc tf a files ttl | t1 | a files | tp tn]; simpl run.
  + unfold createTask. destruct (existsb _ (tasks db)) eqn:E;
      [repeat split; assumption|].
    apply existsb_id_false in E. cbn [tasks intents evidence with_tasks].
    assert (Hkeep : forall id', getTask id' db <> None ->
                getTask id' (with_tasks db
                               (tasks db ++ [TaskRow.mk id title d t1])) <> None).
    { intros id' Hs Hn. apply getTask_none_iff in Hn. apply Hs.
      apply getTask_none_iff. intros Hin. apply Hn. simpl.
      rewrite map_app, in_app_iff. now left. }
    repeat split; try assumption.
    * rewrite map_app. simpl. now apply NoDup_snoc.
    * intros r Hr. apply Hkeep. now apply Hri.
    * intros r Hr. apply Hkeep. now apply Hre.
  + unfold postIntent. destruct (getTask (pi_taskId input) db) as [task|] eqn:G;
      [|repeat split; assumption].
    destruct (existsb _ (intents db)) eqn:E; [repeat split; assumption|].
    apply existsb_id_false in E. cbn [tasks intents evidence with_intents].
    repeat split; try assumption.
    * rewrite map_app. simpl. now apply NoDup_snoc.
    * intros r Hr. apply in_app_iff in Hr. destruct Hr as [Hr | [Hr | []]].
      -- now apply Hri.
      -- subst r. simpl. unfold getTask in *. simpl. now rewrite G.
  + unfold attachEvidence.
    destruct (getTask (ae_taskId input) db) as [task|] eqn:G;
      [|repeat split; assumption].
    destruct (existsb _ (evidence db)) eqn:E; [repeat split; assumption|].
    apply existsb_id_false in E. cbn [tasks intents evidence with_evidence].
    repeat split; try assumption.
    * rewrite map_app. simpl. now apply NoDup_snoc.
    * intros r Hr. apply in_app_iff in Hr. destruct Hr as [Hr | [Hr | []]].
      -- now apply Hre.
      -- subst r. simpl. unfold getTask in *. simpl. now rewrite G.
  + unfold createClaim. destruct (0 <? Z.of_nat (List.length _));
      repeat split; assumption.
  + repeat split; assumption.
  + repeat split; assumption.
  + repeat split; assumption.
Qed.

Lemma reachable_entity_integrity_witness :
  reachable 9000 db_late
  /\ NoDup (map TaskRow.id (tasks db_late)).
Proof.
split; [exact reachable_db_late|].
exact (proj1 (reachable_entity_integrity 9000 db_late reachable_db_late)).
Defined.

End EntityStore.

(** ** The list queries *)

Section ListQueries.

Import HallState HallQueries.

Lemma insert_by_desc_perm {A : Type} (key : A -> Z) (x : A) (l : list A) :
  Permutation (insert_by_desc key x l) (x :: l).
Proof.
induction l as [|y l IH]; simpl; [reflexivity|].
destruct (key y <=? key x); [reflexivity|].
rewrite IH. apply perm_swap.
Qed.

Lemma order_by_desc_perm {A : Type} (key : A -> Z) (l : list A) :
  Permutation (order_by_desc key l) l.
Proof.
induction l as [|x l IH]; simpl; [reflexivity|].
rewrite insert_by_desc_perm. now constructor.
Qed.

Lemma in_order_by_desc {A : Type} (key : A -> Z) (l : list A) (x : A) :
  In x (order_by_desc key l) <-> In x l.
Proof.
pose proof (order_by_desc_perm key l) as H. split.
- apply (Permutation_in _ H).
- apply (Permutation_in _ (Permutation_sym H)).
Qed.

Lemma insert_by_desc_sorted {A : Type} (key : A -> Z) (x : A) (l : list A) :
  newest_first key l -> newest_first key (insert_by_desc key x l).
Proof.
unfold newest_first. induction 1 as [|y l Hl IH Hy]; simpl.
- constructor; constructor.
- destruct (key y <=? key x) eqn:E.
  + apply Z.leb_le in E. constructor; [now constructor|].
    constructor; [assumption|].
    apply Forall_forall. intros z Hz.
    rewrite Forall_forall in Hy. specialize (Hy z Hz). lia.
  + apply Z.leb_gt in E. constructor; [assumption|].
    apply Forall_forall. intros z Hz.
    apply (Permutation_in _ (insert_by_desc_perm key x l)) in Hz.
    destruct Hz as [Hz | Hz]; [subst z; lia|].
    rewrite Forall_forall in Hy. now apply Hy.
Qed.

Lemma order_by_desc_sorted {A : Type} (key : A -> Z) (l : list A) :
  newest_first key (order_by_desc key l).
Proof.
induction l as [|x l IH]; simpl; [constructor|].
now apply insert_by_desc_sorted.
Qed.

Lemma newest_first_map {A B : Type} (f : A -> B) (key : A -> Z) (key' : B -> Z)
  (l : list A) :
  (forall x, key' (f x) = key x) ->
  newest_first key l -> newest_first key' (map f l).
Proof.
intros Hk. unfold newest_first. induction 1 as [|x l Hl IH Hx]; simpl;
  constructor; [assumption|].
apply Forall_forall. intros y Hy. apply in_map_iff in Hy.
destruct Hy as [z [Hz Hin]]. subst y. rewrite !Hk.
rewrite Forall_forall in Hx. now apply Hx.
Qed.

Lemma in_firstn {A : Type} (n : nat) (l : list A) (x : A) :
  In x (firstn n l) -> In x l.
Proof.
revert l. induction n as [|n IH]; intros [|y l]; simpl; try contradiction.
intros [H | H]; [now left | right; now apply IH].
Qed.

Lemma in_skipn {A : Type} (n : nat) (l : list A) (x : A) :
  In x (skipn n l) -> In x l.
Proof.
revert l. induction n as [|n IH]; intros [|y l]; simpl; try tauto.
intros H. right. now apply IH.
Qed.

Lemma newest_first_firstn {A : Type} (key : A -> Z) (n : nat) (l : list A) :
  newest_first key l -> newest_first key (firstn n l).
Proof.
unfold newest_first. intros H. revert n.
induction H as [|x l Hl IH Hx]; intros [|n]; simpl; try constructor.
- apply IH.
- apply Forall_forall. intros y Hy. rewrite Forall_forall in Hx.
  apply Hx. revert Hy. apply in_firstn.
Qed.

Lemma newest_first_split {A : Type} (key : A -> Z) (n : nat) (l : list A) :
  newest_first key l ->
  forall x y, In x (firstn n l) -> In y (skipn n l) -> key y <= key x.
Proof.
unfold newest_first. intros H. revert n.
induction H as [|z l Hl IH Hz]; intros [|n] x y Hx Hy; simpl in *;
  try contradiction.
destruct Hx as [Hx | Hx].
- subst z. rewrite Forall_forall in Hz. apply Hz.
  revert Hy. apply in_skipn.
- now apply (IH n).
Qed.

(** X14.  The three list queries return newest first: the tasks of
    [listTasks], the intents of [listIntents] and the evidence of
    [listEvidence] come in non-increasing order of [createdAt]. *)
Theorem list_queries_newest_first
  (limit : option Z) (taskId : string) (db : HallDb) :
  newest_first Task.createdAt (listTasks limit db)
  /\ newest_first Intent.createdAt (listIntents taskId db)
  /\ newest_first Evidence.createdAt (listEvidence taskId db).
Proof.
split; [|split].
- unfold listTasks, sql_limit.
  apply (newest_first_map task_of_row TaskRow.created_at); [reflexivity|].
  destruct (_ <? 0); [apply order_by_desc_sorted|].
  apply newest_first_firstn, order_by_desc_sorted.
- apply (newest_first_map intent_of_row IntentRow.created_at); [reflexivity|].
  apply order_by_desc_sorted.
- apply (newest_first_map evidence_of_row EvidenceRow.created_at);
    [reflexivity|].
  apply order_by_desc_sorted.
Qed.

(** X15.  [listTasks] with a limit [n >= 0] returns the [n] newest tasks:
    at most [n] of them, all of them tasks of the table, all the tasks when
    the table has [n] or fewer, and no task of the table is newer than a
    task returned unless it is returned itself.  The omitted limit is 50. *)
Theorem listTasks_newest_n (n : Z) (db : HallDb) :
  0 <= n ->
  Z.of_nat (List.length (listTasks (Some n) db))
  = Z.min n (Z.of_nat (List.length (tasks db)))
  /\ (forall x, In x (listTasks (Some n) db) ->
                exists r, In r (tasks db) /\ x = task_of_row r)
  /\ (forall r x, In r (tasks db) -> In x (listTasks (Some n) db) ->
                  Task.createdAt x < TaskRow.created_at r ->
                  In (task_of_row r) (listTasks (Some n) db))
  /\ listTasks None db = listTasks (Some 50) db.
Proof.
intros Hn. unfold listTasks, sql_limit.
replace (n <? 0) with false by (symmetry; apply Z.ltb_ge; lia).
set (sorted := order_by_desc TaskRow.created_at (tasks db)).
assert (Hlen : List.length sorted = List.length (tasks db))
  by apply (Permutation_length (order_by_desc_perm _ _)).
split; [|split; [|split; [|reflexivity]]].
- rewrite length_map, length_firstn, Hlen. lia.
- intros x Hx. apply in_map_iff in Hx. destruct Hx as [r [Hx Hr]].
  exists r. split; [|now symmetry].
  apply in_firstn in Hr. now apply (proj1 (in_order_by_desc _ _ _)) in Hr.
- intros r x Hr Hx Hnewer. apply in_map. apply in_map_iff in Hx.
  destruct Hx as [rx [Hx Hrx]]. subst x. simpl in Hnewer.
  assert (Hs : In r sorted) by now apply in_order_by_desc.
  rewrite <- (firstn_skipn (Z.to_nat n) sorted) in Hs.
  apply in_app_iff in Hs. destruct Hs as [Hs | Hs]; [assumption|].
  pose proof (newest_first_split TaskRow.created_at (Z.to_nat n) sorted
                (order_by_desc_sorted _ _) rx r Hrx Hs). lia.
Qed.

Lemma listTasks_newest_n_witness :
  0 <= 1
  /\ listTasks (Some 1)
       (run (CallCreateTask "task00000002" 20 "Second" None) db_task)
     = [Task.mk "task00000002" "Second" None 20]
  /\ Z.of_nat (List.length
                 (listTasks (Some 1)
                    (run (CallCreateTask "task00000002" 20 "Second" None)
                       db_task)))
     = Z.min 1 2.
Proof.
split; [lia|]. split; [reflexivity|].
apply (listTasks_newest_n 1
         (run (CallCreateTask "task00000002" 20 "Second" None) db_task)).
lia.
Defined.

(** X16.  Intents can be read back: when [postIntent] succeeds,
    [listIntents] of its task returns the new intent next to those it
    returned before, and [listIntents] of every other task returns what it
    returned before. *)
Theorem postIntent_listIntents_round_trip
  (id : string) (t : Z) (input : PostIntentInput) (db db' : HallDb)
  (intent : Intent.t) :
  postIntent id t input db = Ok (intent, db') ->
  intent = Intent.mk id (pi_taskId input) (pi_agentId input) (pi_files input)
             (pi_boundaries input) (pi_acceptanceCriteria input) t
  /\ (forall taskId i,
        In i (listIntents taskId db') <->
        In i (listIntents taskId db) \/ (taskId = pi_taskId input /\ i = intent)).
Proof.
unfold postIntent. destruct (getTask (pi_taskId input) db); [|discriminate].
destruct (existsb _ (intents db)); [discriminate|].
intros H. inversion H; subst; clear H. split; [reflexivity|].
intros taskId i. unfold listIntents. cbn [intents with_intents].
rewrite !in_map_iff. split.
- intros [r [Hi Hr]]. apply in_order_by_desc, filter_In in Hr.
  destruct Hr as [Hr Ht]. apply in_app_iff in Hr.
  destruct Hr as [Hr | [Hr | []]].
  + left. exists r. split; [assumption|].
    apply in_order_by_desc, filter_In. now split.
  + right. subst r. simpl in Ht. apply String.eqb_eq in Ht.
    split; [now symmetry | now symmetry].
- intros [[r [Hi Hr]] | [Ht Hi]].
  + exists r. split; [assumption|]. apply in_order_by_desc, filter_In.
    apply in_order_by_desc, filter_In in Hr. destruct Hr as [Hr Ht].
    split; [apply in_app_iff; now left | assumption].
  + subst taskId i.
    exists (IntentRow.mk id (pi_taskId input) (pi_agentId input)
              (pi_files input) (pi_boundaries input)
              (pi_acceptanceCriteria input) t).
    split; [|apply in_order_by_desc, filter_In; split].
    * reflexivity.
    * apply in_app_iff. right. now left.
    * simpl. apply String.eqb_refl.
Qed.

Lemma postIntent_listIntents_round_trip_witness :
  exists intent db',
    postIntent "intent000001" 20
      (mkPostIntentInput "task00000001" "agentB" ["src/a.ts"] None None) db_task
    = Ok (intent, db')
    /\ In intent (listIntents "task00000001" db').
Proof.
eexists. eexists. split; [reflexivity|].
apply (proj2 (postIntent_listIntents_round_trip "intent000001" 20
                (mkPostIntentInput "task00000001" "agentB" ["src/a.ts"] None None)
                db_task _ _ eq_refl)).
right. split; reflexivity.
Defined.



(** A clip at 20000 that falls inside a surrogate pair (U+1F600 is D83D
    DE00) leaves an output that is not well-formed. *)
Example clipOutput_cuts_surrogate_pair :
  well_formed_utf16
    (clipOutput (repeat 120%N (Z.to_nat 19999) ++ [55357; 56832; 121]%N))
  = false.
Proof. vm_compute. reflexivity. Qed.

End ListQueries.

(** ** Clipping, the event bus and the read-only tools *)

Section ClipAndEvents.

(** X18.  The stored output is bounded and keeps the head of the input:
    [clipOutput] never returns more than 20025 code units, its first 20000
    code units are the first 20000 of its argument, and clipping what has
    been clipped changes nothing. *)
Theorem clipOutput_bounded_prefix (s : JsString) :
  js_length (clipOutput s) <= 20025
  /\ firstn (Z.to_nat 20000) (clipOutput s) = firstn (Z.to_nat 20000) s
  /\ clipOutput (clipOutput s) = clipOutput s.
Proof.
destruct (Z_le_gt_dec (js_length s) 20000) as [Hshort | Hlong].
- rewrite (clipOutput_short s Hshort). split; [lia|]. split; [reflexivity|].
  now apply clipOutput_short.
- assert (Hl : 20000 < js_length s) by lia.
  rewrite (clipOutput_long s Hl).
  set (marker := js_of_string (newline ++ "[clipped to 20000 chars]")%string).
  assert (Hlen : List.length (firstn (Z.to_nat 20000) s) = Z.to_nat 20000).
  { rewrite length_firstn. unfold js_length in Hl. lia. }
  assert (Htotal : js_length (firstn (Z.to_nat 20000) s ++ marker) = 20025).
  { unfold js_length. rewrite length_app, Hlen.
    replace (List.length marker) with 25%nat by reflexivity. lia. }
  assert (Hhead : firstn (Z.to_nat 20000) (firstn (Z.to_nat 20000) s ++ marker)
                  = firstn (Z.to_nat 20000) s).
  { rewrite firstn_app, Hlen, Nat.sub_diag. cbn [firstn].
    rewrite app_nil_r, firstn_firstn. now rewrite Nat.min_id. }
  split; [rewrite Htotal; lia|]. split; [exact Hhead|].
  rewrite clipOutput_long by (rewrite Htotal; lia).
  now rewrite Hhead.
Qed.

(** X19.  A ring of any size: after the events [evts] have been pushed
    into [new EventRing(n)], [toArray] returns the last [n] of them in
    order of arrival; a ring of size zero or less still holds the latest
    event. *)
Theorem eventRing_keeps_last_n (n : Z) (evts : list HallEvent) :
  EventRing.toArray
    (fold_left (fun acc e => EventRing.push e acc) evts (EventRing.new n))
  = skipn (List.length evts - Z.to_nat (Z.max n 1)) evts.
Proof.
unfold EventRing.toArray.
induction evts as [|e evts IH] using rev_ind; [reflexivity|].
rewrite fold_left_app. cbn [fold_left]. unfold EventRing.push at 1.
rewrite maxSize_fold_push. cbn [EventRing.buffer EventRing.new EventRing.maxSize].
rewrite IH, length_skipn, length_app. cbn [List.length].
set (k := Z.to_nat (Z.max n 1)).
assert (Hk : (1 <= k)%nat) by (subst k; lia).
destruct (n <=? Z.of_nat (List.length evts - (List.length evts - k))) eqn:E.
- apply Z.leb_le in E. unfold EventRing.shift.
  destruct (Nat.le_gt_cases k (List.length evts)) as [Hfull | Hroom].
  + rewrite tl_skipn, skipn_app.
    replace (List.length evts + 1 - k)%nat
      with (S (List.length evts - k)) by lia.
    replace (S (List.length evts - k) - List.length evts)%nat with 0%nat by lia.
    reflexivity.
  + assert (Hk1 : k = 1%nat) by (subst k; lia).
    destruct evts as [|e0 evts]; [|simpl in Hroom; lia].
    rewrite Hk1. reflexivity.
- apply Z.leb_gt in E.
  assert (Hroom : (List.length evts < k)%nat) by (subst k; lia).
  replace (List.length evts - k)%nat with 0%nat by lia.
  replace (List.length evts + 1 - k)%nat with 0%nat by lia.
  reflexivity.
Qed.

(** X20.  Delivery: after a sequence of broadcasts every client whose
    [readyState] is 1 has received all the events, in order, after what it
    had received before; every other client has received none of them; no
    client is added or dropped. *)
Theorem broadcast_all_delivery (evts : list HallEvent) (s : Server) :
  wsClients (broadcast_all evts s)
  = map (fun client =>
           if readyState client =? 1
           then mkWsClient (readyState client) (received client ++ evts)
           else client)
      (wsClients s).
Proof.
unfold broadcast_all. revert s.
induction evts as [|e evts IH]; intros s; simpl.
- rewrite <- (map_id (wsClients s)) at 1. apply map_ext.
  intros [st rec]. simpl. destruct (st =? 1); [now rewrite app_nil_r | reflexivity].
- rewrite IH. cbn [broadcast wsClients]. rewrite map_map. apply map_ext.
  intros [st rec]. simpl. destruct (st =? 1) eqn:E; simpl.
  + now rewrite E, <- app_assoc.
  + now rewrite E.
Qed.

Lemma in_find_overlaps (claims : list Claim.t) (files : list string)
  (o : McpQueries.Overlap) :
  In o (McpQueries.find_overlaps claims files) <->
  exists c, In c claims /\ In (McpQueries.o_file o) files
            /\ In (McpQueries.o_file o) (Claim.files c)
            /\ McpQueries.o_claimedBy o = Claim.agentId c
            /\ McpQueries.o_expiresAt o = Claim.expiresAt c.
Proof.
unfold McpQueries.find_overlaps. rewrite in_flat_map. split.
- intros [c [Hc Ho]]. apply in_map_iff in Ho. destruct Ho as [f [Ho Hf]].
  apply filter_In in Hf. destruct Hf as [Hf Hinc].
  unfold McpQueries.includes in Hinc. apply existsb_exists in Hinc.
  destruct Hinc as [g [Hg Hfg]]. apply String.eqb_eq in Hfg. subst g o.
  exists c. simpl. tauto.
- intros [c [Hc [Hf [Hinc [Ha He]]]]]. exists c. split; [assumption|].
  apply in_map_iff. exists (McpQueries.o_file o). split.
  + destruct o as [f a e]. simpl in *. now subst.
  + apply filter_In. split; [assumption|].
    unfold McpQueries.includes. apply existsb_exists.
    exists (McpQueries.o_file o). split; [assumption | apply String.eqb_refl].
Qed.

(** X21.  [hall_overlap_check] on a valid list of files reports, without
    [isError], exactly the pairs of a requested file and an agent that
    holds a live lease on it; [hasOverlaps] says whether there is one;
    every [expiresAt] reported lies after the reading of the call; the
    database is left swept and otherwise as it was. *)
Theorem hall_overlap_check_reports_live_holders
  (t : Z) (files : list string) (db : HallDb) :
  McpQueries.OverlapCheckInput_parse files = Ok files ->
  exists overlaps,
    McpQueries.hall_overlap_check t files db
    = ((McpQueries.OverlapReport (0 <? Z.of_nat (List.length overlaps))
          overlaps files, None),
       HallState.pruneExpiredClaims t db)
    /\ (forall f a,
          (exists e, In (McpQueries.mkOverlap f a e) overlaps)
          <-> In f files /\ holds_live t a f db = true)
    /\ ((0 <? Z.of_nat (List.length overlaps)) = true <->
        exists f a, In f files /\ holds_live t a f db = true)
    /\ (forall o, In o overlaps -> t < McpQueries.o_expiresAt o).
Proof.
intros Hparse. unfold McpQueries.hall_overlap_check. rewrite Hparse.
destruct (HallState.listActiveClaims t db) as [cl db'] eqn:E.
assert (Hcl : cl = fst (HallState.listActiveClaims t db)) by now rewrite E.
assert (Hdb : db' = HallState.pruneExpiredClaims t db)
  by (unfold HallState.listActiveClaims in E; now inversion E).
destruct (listed_iff_live t db) as [Hlive Hexp]. rewrite <- Hcl in Hlive, Hexp.
exists (McpQueries.find_overlaps cl files). subst db'.
assert (Hpairs : forall f a,
           (exists e, In (McpQueries.mkOverlap f a e)
                        (McpQueries.find_overlaps cl files))
           <-> In f files /\ holds_live t a f db = true).
{ intros f a. rewrite <- Hlive. split.
  - intros [e Ho]. apply in_find_overlaps in Ho. simpl in Ho.
    destruct Ho as [c [Hc [Hf [Hinc [Ha _]]]]].
    split; [assumption|]. exists c. now split.
  - intros [Hf [c [Hc [Ha Hinc]]]]. exists (Claim.expiresAt c).
    apply in_find_overlaps. exists c. simpl. now subst a. }
split; [reflexivity|]. split; [exact Hpairs|]. split.
- rewrite length_pos_true. split.
  + intros Hne. destruct (McpQueries.find_overlaps cl files) as [|[f a e] l] eqn:Eo;
      [congruence|].
    exists f, a. apply Hpairs. exists e. now left.
  + intros [f [a Hfa]]. apply Hpairs in Hfa. destruct Hfa as [e He].
    intros Hnil. rewrite Hnil in He. contradiction.
- intros o Ho. apply in_find_overlaps in Ho.
  destruct Ho as [c [Hc [_ [_ [_ He]]]]]. rewrite He. now apply Hexp.
Qed.

Lemma hall_overlap_check_reports_live_holders_witness :
  McpQueries.OverlapCheckInput_parse ["src/a.ts"; "src/z.ts"]
  = Ok ["src/a.ts"; "src/z.ts"]
  /\ fst (McpQueries.hall_overlap_check 100 ["src/a.ts"; "src/z.ts"] db_A)
     = (McpQueries.OverlapReport true
          [McpQueries.mkOverlap "src/a.ts" "agentA" 5000]
          ["src/a.ts"; "src/z.ts"], None)
  /\ exists overlaps,
       McpQueries.hall_overlap_check 100 ["src/a.ts"; "src/z.ts"] db_A
       = ((McpQueries.OverlapReport (0 <? Z.of_nat (List.length overlaps))
             overlaps ["src/a.ts"; "src/z.ts"], None),
          HallState.pruneExpiredClaims 100 db_A).
Proof.
split; [reflexivity|]. split; [reflexivity|].
destruct (hall_overlap_check_reports_live_holders 100
            ["src/a.ts"; "src/z.ts"] db_A eq_refl) as [overlaps [H _]].
exists overlaps. exact H.
Defined.

(** X22.  [hall_task_get] for an id of four characters or more: an unknown
    task gives the text [Task not found: <id>] with [isError: true]; a
    known task is returned, without [isError], with the task of that id
    and with the intents and the evidence of that task and of no other. *)
Theorem hall_task_get_found_or_not (taskId : string) (db : HallDb) :
  (4 <= String.length taskId)%nat ->
  (HallState.getTask taskId db = None ->
   McpQueries.hall_task_get taskId db
   = (McpQueries.TaskText ("Task not found: " ++ taskId)%string, Some true))
  /\ (forall task, HallState.getTask taskId db = Some task ->
        Task.id task = taskId
        /\ exists its evs,
             McpQueries.hall_task_get taskId db
             = (McpQueries.TaskFound task its evs, None)
             /\ (forall i, In i its <->
                           exists r, In r (intents db)
                                     /\ IntentRow.task_id r = taskId
                                     /\ i = HallQueries.intent_of_row r)
             /\ (forall e, In e evs <->
                           exists r, In r (evidence db)
                                     /\ EvidenceRow.task_id r = taskId
                                     /\ e = HallQueries.evidence_of_row r)).
Proof.
intros Hlen. unfold McpQueries.hall_task_get, McpQueries.TaskGetInput_parse.
replace (4 <=? String.length taskId)%nat with true
  by (symmetry; now apply Nat.leb_le).
split.
- intros Hnone. now rewrite Hnone.
- intros task Hsome. rewrite Hsome. split.
  + unfold HallState.getTask in Hsome.
    destruct (find (fun r => String.eqb (TaskRow.id r) taskId) (tasks db))
      as [row|] eqn:F; [|discriminate].
    apply find_some in F. destruct F as [_ F]. apply String.eqb_eq in F.
    inversion Hsome. subst task. exact F.
  + eexists. eexists. split; [reflexivity|]. split.
    * intros i. unfold HallQueries.listIntents. rewrite in_map_iff.
      split; intros [r Hr]; exists r.
      -- destruct Hr as [Hi Hr].
         apply (proj1 (in_order_by_desc _ _ _)), filter_In in Hr.
         destruct Hr as [Hr Ht]. apply String.eqb_eq in Ht. now subst i.
      -- destruct Hr as [Hr [Ht Hi]]. split; [now symmetry|].
         apply in_order_by_desc, filter_In. split; [assumption|].
         now apply String.eqb_eq.
    * intros e. unfold HallQueries.listEvidence. rewrite in_map_iff.
      split; intros [r Hr]; exists r.
      -- destruct Hr as [Hi Hr].
         apply (proj1 (in_order_by_desc _ _ _)), filter_In in Hr.
         destruct Hr as [Hr Ht]. apply String.eqb_eq in Ht. now subst e.
      -- destruct Hr as [Hr [Ht Hi]]. split; [now symmetry|].
         apply in_order_by_desc, filter_In. split; [assumption|].
         now apply String.eqb_eq.
Qed.

Lemma hall_task_get_found_or_not_witness :
  (4 <= String.length "task00000009")%nat
  /\ HallState.getTask "task00000009" db_task = None
  /\ McpQueries.hall_task_get "task00000009" db_task
     = (McpQueries.TaskText "Task not found: task00000009", Some true).
Proof.
split; [simpl; lia|]. split; [reflexivity|].
apply (proj1 (hall_task_get_found_or_not "task00000009" db_task
                ltac:(simpl; lia))).
reflexivity.
Defined.

End ClipAndEvents.
